(** * AES.py: AES-256-CBC file encryption with PKCS7 padding and base64 transport

    A shallow embedding of [src/poc/test-libraries/python/AES.py] (class
    [AESCipher]) and the properties of its key check, padding codec and
    encrypt/decrypt pair.

    Python values are modelled as follows: [bytes] objects are lists of
    [Byte.byte], Python integers are [Z], a raised exception is the [Raise]
    branch of [result].  The library calls of the script ([os.urandom],
    [base64], the block cipher behind [cryptography]'s [Cipher]) are not part
    of the repository: the random IV is an explicit argument, and the codec
    and the block cipher are parameters of the model, instantiated further
    down by RFC 4648 base64 and FIPS 197 AES.  [ensure_directory_exists] and
    [main] act on the file system and the console, which are a parameter of
    their model as well, instantiated by a table of directories and files. *)

From Stdlib Require Import String Ascii List ZArith NArith Lia Bool Btauto DecimalString.
From Stdlib.Strings Require Import Byte.
Import ListNotations.

Local Open Scope Z_scope.

(** ** Python values and exceptions *)

Definition bytes := list byte.

Inductive exn : Type :=
| ValueError (msg : string)
| IndexError (msg : string)
| BinasciiError (msg : string).

Inductive result (A : Type) : Type :=
| Ok (a : A)
| Raise (e : exn).

Arguments Ok {A} a.
Arguments Raise {A} e.

Definition bind {A B : Type} (r : result A) (k : A -> result B) : result B :=
  match r with
  | Ok a => k a
  | Raise e => Raise e
  end.

Notation "x <- r ;; k" := (bind r (fun x => k))
  (at level 61, r at next level, right associativity).

(** ** The built-in operations the script uses *)

Module Py.

(** [len(b)] *)
Definition len {A : Type} (l : list A) : Z := Z.of_nat (length l).

(** The bound of a slice: a negative index counts from the end, and the
    result is clamped to [0 .. len]. *)
Definition clamp {A : Type} (l : list A) (i : Z) : nat :=
  if i <? 0 then Z.to_nat (Z.max 0 (len l + i))
  else Z.to_nat (Z.min i (len l)).

(** [l[:stop]] *)
Definition slice_to {A : Type} (l : list A) (stop : Z) : list A :=
  firstn (clamp l stop) l.

(** [l[start:]] *)
Definition slice_from {A : Type} (l : list A) (start : Z) : list A :=
  skipn (clamp l start) l.

(** [b[i]] on a bytes object: an integer in [range(256)], or [IndexError]. *)
Definition getitem (b : bytes) (i : Z) : result Z :=
  let j := if i <? 0 then len b + i else i in
  if (j <? 0) || (len b <=? j) then Raise (IndexError "index out of range")
  else match nth_error b (Z.to_nat j) with
       | Some x => Ok (Z.of_N (Byte.to_N x))
       | None => Raise (IndexError "index out of range")
       end.

(** [[x] * n] *)
Definition list_mul {A : Type} (x : A) (n : Z) : list A := repeat x (Z.to_nat n).

(** [bytes(ints)]: every integer must lie in [range(256)]. *)
Fixpoint bytes_of_ints (l : list Z) : result bytes :=
  match l with
  | [] => Ok []
  | z :: tl =>
      if (z <? 0) || (256 <=? z) then Raise (ValueError "bytes must be in range(0, 256)")
      else match Byte.of_N (Z.to_N z) with
           | Some b => (rest <- bytes_of_ints tl ;; Ok (b :: rest))
           | None => Raise (ValueError "bytes must be in range(0, 256)")
           end
  end.

End Py.

(** ** class AESCipher *)

(** [block_size = int(algorithms.AES.block_size / 8)]: the library constant
    [algorithms.AES.block_size] is 128 (bits). *)
Definition AES_block_size_bits : Z := 128.
Definition block_size : Z := AES_block_size_bits / 8.

Record AESCipher : Type := { _key : bytes }.

(** [AESCipher.__init__(self, key)] *)
Definition __init__ (key : bytes) : result AESCipher :=
  if negb (Py.len key * 8 =? 256) then
    Raise (ValueError "Invalid key size (must be 256 bit)")
  else Ok {| _key := key |}.

(** [AESCipher._pad(self, raw)] *)
Definition _pad (raw : bytes) : result bytes :=
  let ordinal := block_size - Py.len raw mod block_size in
  padding <- Py.bytes_of_ints (Py.list_mul ordinal ordinal) ;;
  Ok (raw ++ padding).

(** [AESCipher._unpad(padded)] *)
Definition _unpad (padded : bytes) : result bytes :=
  n <- Py.getitem padded (-1) ;;
  Ok (Py.slice_to padded (- n)).

(** ** The [cryptography] objects behind [_cipher]

    [Cipher(algorithms.AES(key), modes.CBC(iv), backend)] validates the key
    size and the IV size when it is built; [encryptor()] and [decryptor()]
    then run CBC chaining over the block cipher, [finalize()] refusing data
    that does not end on a block boundary (the contexts apply no padding of
    their own). *)

Definition repr_int (z : Z) : string := DecimalString.NilZero.string_of_int (Z.to_int z).

(** Bitwise exclusive or of two bytes. *)
Definition byte_xor (a b : byte) : byte :=
  let '(a0, (a1, (a2, (a3, (a4, (a5, (a6, a7))))))) := Byte.to_bits a in
  let '(b0, (b1, (b2, (b3, (b4, (b5, (b6, b7))))))) := Byte.to_bits b in
  Byte.of_bits (xorb a0 b0, (xorb a1 b1, (xorb a2 b2, (xorb a3 b3,
               (xorb a4 b4, (xorb a5 b5, (xorb a6 b6, xorb a7 b7))))))).

Fixpoint xor_bytes (a b : bytes) : bytes :=
  match a, b with
  | x :: a', y :: b' => byte_xor x y :: xor_bytes a' b'
  | _, _ => []
  end.

Record Cipher : Type := { cipher_key : bytes; cipher_iv : bytes }.

(** [algorithms.AES(key)] *)
Definition algorithms_AES (key : bytes) : result bytes :=
  if existsb (Z.eqb (Py.len key * 8)) [128; 192; 256; 512] then Ok key
  else Raise (ValueError ("Invalid key size (" ++ repr_int (Py.len key * 8) ++ ") for AES.")).

(** [Cipher(algorithm, modes.CBC(iv), backend)] *)
Definition new_Cipher (key iv : bytes) : result Cipher :=
  if 256 <? Py.len key * 8 then
    Raise (ValueError "Only 128, 192, and 256 bit keys are allowed for this AES mode")
  else if negb (Py.len iv * 8 =? AES_block_size_bits) then
    Raise (ValueError ("Invalid IV size (" ++ repr_int (Py.len iv) ++ ") for CBC."))
  else Ok {| cipher_key := key; cipher_iv := iv |}.

Definition not_block_multiple : exn :=
  ValueError "The length of the provided data is not a multiple of the block length.".

Section AESCipher.

(** The block cipher primitive: one 16-byte block under a key. *)
Variables block_encrypt block_decrypt : bytes -> bytes -> bytes.

(** [base64.b64encode] and [base64.b64decode]. *)
Variable b64encode : bytes -> bytes.
Variable b64decode : bytes -> result bytes.

(** CBC chaining over [n] whole blocks, [prev] being the IV or the previous
    ciphertext block. *)
Fixpoint cbc_encrypt_blocks (n : nat) (key prev data : bytes) : bytes :=
  match n with
  | O => []
  | S n' =>
      let c := block_encrypt key (xor_bytes (firstn 16 data) prev) in
      c ++ cbc_encrypt_blocks n' key c (skipn 16 data)
  end.

Fixpoint cbc_decrypt_blocks (n : nat) (key prev data : bytes) : bytes :=
  match n with
  | O => []
  | S n' =>
      let c := firstn 16 data in
      xor_bytes (block_decrypt key c) prev ++ cbc_decrypt_blocks n' key c (skipn 16 data)
  end.

(** [ctx.update(data) + ctx.finalize()] for an encryptor *)
Definition encryptor_run (c : Cipher) (data : bytes) : result bytes :=
  let out := cbc_encrypt_blocks (Z.to_nat (Py.len data / block_size))
                                (cipher_key c) (cipher_iv c) data in
  if Py.len data mod block_size =? 0 then Ok out else Raise not_block_multiple.

(** [ctx.update(data) + ctx.finalize()] for a decryptor *)
Definition decryptor_run (c : Cipher) (data : bytes) : result bytes :=
  let out := cbc_decrypt_blocks (Z.to_nat (Py.len data / block_size))
                                (cipher_key c) (cipher_iv c) data in
  if Py.len data mod block_size =? 0 then Ok out else Raise not_block_multiple.

(** [AESCipher._cipher(self, iv)] *)
Definition _cipher (self : AESCipher) (iv : bytes) : result Cipher :=
  algorithm <- algorithms_AES (_key self) ;;
  new_Cipher algorithm iv.

(** [AESCipher.encrypt(self, raw)], [iv] being the value that
    [os.urandom(AESCipher.block_size)] returned. *)
Definition encrypt (self : AESCipher) (iv : bytes) (raw : bytes) : result bytes :=
  encryptor <- _cipher self iv ;;
  padded <- _pad raw ;;
  cipher_text <- encryptor_run encryptor padded ;;
  Ok (b64encode (cipher_text ++ iv)).

(** [AESCipher.decrypt(self, encoded)] *)
Definition decrypt (self : AESCipher) (encoded : bytes) : result bytes :=
  raw <- b64decode encoded ;;
  let cipher_text := Py.slice_to raw (- block_size) in
  let iv := Py.slice_from raw (- block_size) in
  decryptor <- _cipher self iv ;;
  padded <- decryptor_run decryptor cipher_text ;;
  _unpad padded.

End AESCipher.

(** ** The block cipher: AES (FIPS 197)

    The primitive that [algorithms.AES(key)] names.  A block and a round key
    are 16 bytes, the state is kept in the order of the input block (column
    by column). *)

Module AES.

(** *** The field GF(2^8) *)

(** Multiplication by [x] modulo [x^8 + x^4 + x^3 + x + 1]. *)
Definition xtime (a : byte) : byte :=
  let '(a0, (a1, (a2, (a3, (a4, (a5, (a6, a7))))))) := Byte.to_bits a in
  Byte.of_bits (a7, (xorb a0 a7, (a1, (xorb a2 a7, (xorb a3 a7, (a4, (a5, a6))))))).

Definition bits_of (a : byte) : list bool :=
  let '(a0, (a1, (a2, (a3, (a4, (a5, (a6, a7))))))) := Byte.to_bits a in
  [a0; a1; a2; a3; a4; a5; a6; a7].

Fixpoint gf_mul_bits (bits : list bool) (b : byte) : byte :=
  match bits with
  | [] => x00
  | bit :: rest => byte_xor (if bit then b else x00) (gf_mul_bits rest (xtime b))
  end.

Definition gf_mul (a b : byte) : byte := gf_mul_bits (bits_of a) b.

Fixpoint gf_pow (a : byte) (n : nat) : byte :=
  match n with
  | O => x01
  | S n' => gf_mul a (gf_pow a n')
  end.

(** The multiplicative inverse, with 0 mapped to 0. *)
Definition gf_inv (a : byte) : byte := gf_pow a 254.

(** *** SubBytes *)

Definition affine (b : byte) : byte :=
  let '(b0, (b1, (b2, (b3, (b4, (b5, (b6, b7))))))) := Byte.to_bits b in
  let x := xorb in
  Byte.of_bits
    (negb (x b0 (x b4 (x b5 (x b6 b7)))),
    (negb (x b1 (x b5 (x b6 (x b7 b0)))),
    (x b2 (x b6 (x b7 (x b0 b1))),
    (x b3 (x b7 (x b0 (x b1 b2))),
    (x b4 (x b0 (x b1 (x b2 b3))),
    (negb (x b5 (x b1 (x b2 (x b3 b4)))),
    (negb (x b6 (x b2 (x b3 (x b4 b5)))),
    x b7 (x b3 (x b4 (x b5 b6)))))))))).

Definition all_bytes : list byte :=
  Eval vm_compute in
    map (fun n => match Byte.of_nat n with Some b => b | None => x00 end) (seq 0 256).

Definition sbox_table : list byte :=
  Eval vm_compute in map (fun b => affine (gf_inv b)) all_bytes.

Definition sbox (b : byte) : byte := nth (Byte.to_nat b) sbox_table x00.

Definition inv_sbox_table : list byte :=
  Eval vm_compute in
    map (fun y => match find (fun x => Byte.eqb (sbox x) y) all_bytes with
                  | Some x => x
                  | None => x00
                  end) all_bytes.

Definition inv_sbox (b : byte) : byte := nth (Byte.to_nat b) inv_sbox_table x00.

Definition sub_bytes (st : bytes) : bytes := map sbox st.
Definition inv_sub_bytes (st : bytes) : bytes := map inv_sbox st.

(** *** ShiftRows: row [r] of the state rotates left by [r] columns *)

Definition shift_rows (st : bytes) : bytes :=
  match st with
  | [s0; s1; s2; s3; s4; s5; s6; s7; s8; s9; s10; s11; s12; s13; s14; s15] =>
      [s0; s5; s10; s15; s4; s9; s14; s3; s8; s13; s2; s7; s12; s1; s6; s11]
  | _ => st
  end.

Definition inv_shift_rows (st : bytes) : bytes :=
  match st with
  | [s0; s1; s2; s3; s4; s5; s6; s7; s8; s9; s10; s11; s12; s13; s14; s15] =>
      [s0; s13; s10; s7; s4; s1; s14; s11; s8; s5; s2; s15; s12; s9; s6; s3]
  | _ => st
  end.

(** *** MixColumns *)

Definition xor4 (a b c d : byte) : byte := byte_xor a (byte_xor b (byte_xor c d)).

Definition mix_column (a0 a1 a2 a3 : byte) : bytes :=
  [ xor4 (gf_mul x02 a0) (gf_mul x03 a1) a2 a3;
    xor4 a0 (gf_mul x02 a1) (gf_mul x03 a2) a3;
    xor4 a0 a1 (gf_mul x02 a2) (gf_mul x03 a3);
    xor4 (gf_mul x03 a0) a1 a2 (gf_mul x02 a3) ].

Definition inv_mix_column (a0 a1 a2 a3 : byte) : bytes :=
  [ xor4 (gf_mul x0e a0) (gf_mul x0b a1) (gf_mul x0d a2) (gf_mul x09 a3);
    xor4 (gf_mul x09 a0) (gf_mul x0e a1) (gf_mul x0b a2) (gf_mul x0d a3);
    xor4 (gf_mul x0d a0) (gf_mul x09 a1) (gf_mul x0e a2) (gf_mul x0b a3);
    xor4 (gf_mul x0b a0) (gf_mul x0d a1) (gf_mul x09 a2) (gf_mul x0e a3) ].

Fixpoint mix_columns (st : bytes) : bytes :=
  match st with
  | a0 :: a1 :: a2 :: a3 :: rest => mix_column a0 a1 a2 a3 ++ mix_columns rest
  | _ => st
  end.

Fixpoint inv_mix_columns (st : bytes) : bytes :=
  match st with
  | a0 :: a1 :: a2 :: a3 :: rest => inv_mix_column a0 a1 a2 a3 ++ inv_mix_columns rest
  | _ => st
  end.

(** *** AddRoundKey *)

Definition add_round_key (st rk : bytes) : bytes := xor_bytes st rk.

(** *** KeyExpansion *)

Definition rot_word (w : bytes) : bytes :=
  match w with
  | a :: rest => rest ++ [a]
  | [] => []
  end.

Definition sub_word (w : bytes) : bytes := map sbox w.

Fixpoint key_words (n : nat) (key : bytes) : list bytes :=
  match n with
  | O => []
  | S n' => firstn 4 key :: key_words n' (skipn 4 key)
  end.

(** [expand fuel Nk i rcon rws]: the words [w[i]], [w[i+1]], ... given the
    words before them in reverse order ([w[i-1]] first). *)
Fixpoint expand (fuel Nk i : nat) (rcon : byte) (rws : list bytes) : list bytes :=
  match fuel with
  | O => rev rws
  | S fuel' =>
      let temp := hd [] rws in
      let back := nth (Nk - 1) rws [] in
      if (i mod Nk =? 0)%nat then
        let t := xor_bytes (sub_word (rot_word temp)) [rcon; x00; x00; x00] in
        expand fuel' Nk (S i) (xtime rcon) (xor_bytes back t :: rws)
      else if ((6 <? Nk) && (i mod Nk =? 4))%nat then
        expand fuel' Nk (S i) rcon (xor_bytes back (sub_word temp) :: rws)
      else expand fuel' Nk (S i) rcon (xor_bytes back temp :: rws)
  end.

Fixpoint group_keys (ws : list bytes) : list bytes :=
  match ws with
  | a :: b :: c :: d :: rest => (a ++ b ++ c ++ d) :: group_keys rest
  | _ => []
  end.

(** The round keys [rk_0 .. rk_Nr] of a key of [4 * Nk] bytes, [Nr = Nk + 6]. *)
Definition key_expansion (key : bytes) : list bytes :=
  let Nk := (length key / 4)%nat in
  let Nr := (Nk + 6)%nat in
  group_keys (expand (4 * (Nr + 1) - Nk) Nk Nk x01 (rev (key_words Nk key))).

(** *** Cipher and InvCipher *)

Definition round (st rk : bytes) : bytes :=
  add_round_key (mix_columns (shift_rows (sub_bytes st))) rk.

Definition final_round (st rk : bytes) : bytes :=
  add_round_key (shift_rows (sub_bytes st)) rk.

Fixpoint rounds (st : bytes) (rks : list bytes) : bytes :=
  match rks with
  | [] => st
  | [rk] => final_round st rk
  | rk :: rest => rounds (round st rk) rest
  end.

Definition cipher (rks : list bytes) (input : bytes) : bytes :=
  match rks with
  | [] => input
  | rk0 :: rest => rounds (add_round_key input rk0) rest
  end.

(** [inv_rounds rks st] undoes the rounds of [rks], last round first:
    AddRoundKey, (InvMixColumns,) InvShiftRows, InvSubBytes. *)
Fixpoint inv_rounds (rks : list bytes) (st : bytes) : bytes :=
  match rks with
  | [] => st
  | [rk] => inv_sub_bytes (inv_shift_rows (add_round_key st rk))
  | rk :: rest =>
      inv_sub_bytes (inv_shift_rows (inv_mix_columns (add_round_key (inv_rounds rest st) rk)))
  end.

Definition inv_cipher (rks : list bytes) (input : bytes) : bytes :=
  match rks with
  | [] => input
  | rk0 :: rest => add_round_key (inv_rounds rest input) rk0
  end.

Definition encrypt_block (key block : bytes) : bytes := cipher (key_expansion key) block.
Definition decrypt_block (key block : bytes) : bytes := inv_cipher (key_expansion key) block.

End AES.

(** ** The transport codec: base64 (RFC 4648, standard alphabet)

    [b64encode] and [b64decode] of Python's [base64] module, the decoder in
    its default mode ([validate=False]): characters outside the alphabet are
    skipped and decoding stops at the padding that completes a quad. *)

Module Base64.

Definition bit8 : Type := (bool * (bool * (bool * (bool * (bool * (bool * (bool * bool)))))))%type.

Definition byte_or (a b : byte) : byte :=
  let '(a0, (a1, (a2, (a3, (a4, (a5, (a6, a7))))))) := Byte.to_bits a in
  let '(b0, (b1, (b2, (b3, (b4, (b5, (b6, b7))))))) := Byte.to_bits b in
  Byte.of_bits (a0 || b0, (a1 || b1, (a2 || b2, (a3 || b3,
               (a4 || b4, (a5 || b5, (a6 || b6, a7 || b7))))))).

Definition byte_and (a b : byte) : byte :=
  let '(a0, (a1, (a2, (a3, (a4, (a5, (a6, a7))))))) := Byte.to_bits a in
  let '(b0, (b1, (b2, (b3, (b4, (b5, (b6, b7))))))) := Byte.to_bits b in
  Byte.of_bits (a0 && b0, (a1 && b1, (a2 && b2, (a3 && b3,
               (a4 && b4, (a5 && b5, (a6 && b6, a7 && b7))))))).

(** [a << 1] and [a >> 1] on an unsigned char *)
Definition shl1 (a : byte) : byte :=
  let '(a0, (a1, (a2, (a3, (a4, (a5, (a6, _))))))) := Byte.to_bits a in
  Byte.of_bits (false, (a0, (a1, (a2, (a3, (a4, (a5, a6))))))).

Definition shr1 (a : byte) : byte :=
  let '(_, (a1, (a2, (a3, (a4, (a5, (a6, a7))))))) := Byte.to_bits a in
  Byte.of_bits (a1, (a2, (a3, (a4, (a5, (a6, (a7, false))))))).

Definition shl (a : byte) (n : nat) : byte := Nat.iter n shl1 a.
Definition shr (a : byte) (n : nat) : byte := Nat.iter n shr1 a.

Definition alphabet : bytes :=
  Eval vm_compute in
    list_byte_of_string "ABCDEFGHIJKLMNOPQRSTUVWXYZabcdefghijklmnopqrstuvwxyz0123456789+/".

Definition pad_char : byte := "="%byte.

(** [table_b2a_base64[s]] *)
Definition table_b2a (s : byte) : byte := nth (Byte.to_nat s) alphabet pad_char.

Fixpoint index_of (ch : byte) (l : bytes) (i : nat) : option nat :=
  match l with
  | [] => None
  | x :: rest => if Byte.eqb x ch then Some i else index_of ch rest (S i)
  end.

(** [table_a2b_base64[ch]], [None] standing for the entries that are not a
    character of the alphabet. *)
Definition table_a2b (ch : byte) : option byte :=
  match index_of ch alphabet 0 with
  | Some i => Byte.of_nat i
  | None => None
  end.

(** The four characters of three bytes. *)
Definition enc0 (a : byte) : byte := table_b2a (shr a 2).
Definition enc1 (a b : byte) : byte :=
  table_b2a (byte_or (shl (byte_and a x03) 4) (shr b 4)).
Definition enc2 (b c : byte) : byte :=
  table_b2a (byte_or (shl (byte_and b x0f) 2) (shr c 6)).
Definition enc3 (c : byte) : byte := table_b2a (byte_and c x3f).

Fixpoint b64encode (data : bytes) : bytes :=
  match data with
  | [] => []
  | [a] => [enc0 a; enc1 a x00; pad_char; pad_char]
  | [a; b] => [enc0 a; enc1 a b; enc2 b x00; pad_char]
  | a :: b :: c :: rest => enc0 a :: enc1 a b :: enc2 b c :: enc3 c :: b64encode rest
  end.

Definition incorrect_padding : exn := BinasciiError "Incorrect padding".

Definition one_more_than_multiple_of_4 (n_out : nat) : exn :=
  BinasciiError ("Invalid base64-encoded string: number of data characters ("
                 ++ repr_int (Z.of_nat n_out / 3 * 4 + 1)
                 ++ ") cannot be 1 more than a multiple of 4").

(** The loop of [binascii.a2b_base64]: [quad_pos] is the position in the
    current quad, [leftchar] the bits not yet written, [pads] the padding
    characters seen since the last data character, [out] the bytes written
    so far, last one first. *)
Fixpoint a2b_loop (s : bytes) (quad_pos : nat) (leftchar : byte) (pads : nat)
         (out : bytes) : result bytes :=
  match s with
  | [] =>
      match quad_pos with
      | O => Ok (rev out)
      | 1%nat => Raise (one_more_than_multiple_of_4 (length out))
      | _ => Raise incorrect_padding
      end
  | ch :: rest =>
      if Byte.eqb ch pad_char then
        if (2 <=? quad_pos)%nat then
          if (4 <=? quad_pos + S pads)%nat then Ok (rev out)
          else a2b_loop rest quad_pos leftchar (S pads) out
        else a2b_loop rest quad_pos leftchar pads out
      else
        match table_a2b ch with
        | None => a2b_loop rest quad_pos leftchar pads out
        | Some this_ch =>
            match quad_pos with
            | 0%nat => a2b_loop rest 1 this_ch 0 out
            | 1%nat =>
                a2b_loop rest 2 (byte_and this_ch x0f) 0
                         (byte_or (shl leftchar 2) (shr this_ch 4) :: out)
            | 2%nat =>
                a2b_loop rest 3 (byte_and this_ch x03) 0
                         (byte_or (shl leftchar 4) (shr this_ch 2) :: out)
            | _ =>
                a2b_loop rest 0 x00 0 (byte_or (shl leftchar 6) this_ch :: out)
            end
        end
  end.

Definition b64decode (s : bytes) : result bytes := a2b_loop s 0 x00 0 [].

End Base64.

(** ** The script's cipher, over AES and base64 *)

Definition aes_encrypt : AESCipher -> bytes -> bytes -> result bytes :=
  encrypt AES.encrypt_block Base64.b64encode.

Definition aes_decrypt : AESCipher -> bytes -> result bytes :=
  decrypt AES.decrypt_block Base64.b64decode.

(** ** What the model asks of the library primitives *)

(** The block cipher maps a 16-byte block to a 16-byte block. *)
Definition block_length_ok (f : bytes -> bytes -> bytes) : Prop :=
  forall key block : bytes,
    length key = 32%nat -> length block = 16%nat -> length (f key block) = 16%nat.

(** Block decryption undoes block encryption under the same key. *)
Definition block_inverse (enc dec : bytes -> bytes -> bytes) : Prop :=
  forall key block : bytes,
    length key = 32%nat -> length block = 16%nat -> dec key (enc key block) = block.

(** Decoding undoes encoding. *)
Definition codec_inverse (enc : bytes -> bytes) (dec : bytes -> result bytes) : Prop :=
  forall data : bytes, dec (enc data) = Ok data.

(** The length of an encoding depends on the length of the data only. *)
Definition codec_length (enc : bytes -> bytes) : Prop :=
  forall x y : bytes, length x = length y -> length (enc x) = length (enc y).

(** ** Tampering with a sealed blob *)

(** The byte with only bit [k] set. *)
Definition bit_mask (k : nat) : byte :=
  nth k [x01; x02; x04; x08; x10; x20; x40; x80] x00.

(** [flip_bit data i]: bit [i mod 8] of byte [i / 8] inverted. *)
Definition flip_bit (data : bytes) (i : nat) : bytes :=
  firstn (i / 8) data ++
  match skipn (i / 8) data with
  | [] => []
  | x :: rest => byte_xor x (bit_mask (i mod 8)) :: rest
  end.

(** ** Bytes as eight bits, least significant first

    The bit-level twins of the operations on bytes; an equation between
    bytes is decided on them. *)

Definition bit8 : Type := Base64.bit8.

Definition zero_b : bit8 :=
  (false, (false, (false, (false, (false, (false, (false, false))))))).

Definition xor_b (a b : bit8) : bit8 :=
  let '(a0, (a1, (a2, (a3, (a4, (a5, (a6, a7))))))) := a in
  let '(b0, (b1, (b2, (b3, (b4, (b5, (b6, b7))))))) := b in
  (xorb a0 b0, (xorb a1 b1, (xorb a2 b2, (xorb a3 b3,
  (xorb a4 b4, (xorb a5 b5, (xorb a6 b6, xorb a7 b7))))))).

Definition or_b (a b : bit8) : bit8 :=
  let '(a0, (a1, (a2, (a3, (a4, (a5, (a6, a7))))))) := a in
  let '(b0, (b1, (b2, (b3, (b4, (b5, (b6, b7))))))) := b in
  (a0 || b0, (a1 || b1, (a2 || b2, (a3 || b3, (a4 || b4, (a5 || b5, (a6 || b6, a7 || b7))))))).

Definition and_b (a b : bit8) : bit8 :=
  let '(a0, (a1, (a2, (a3, (a4, (a5, (a6, a7))))))) := a in
  let '(b0, (b1, (b2, (b3, (b4, (b5, (b6, b7))))))) := b in
  (a0 && b0, (a1 && b1, (a2 && b2, (a3 && b3, (a4 && b4, (a5 && b5, (a6 && b6, a7 && b7))))))).

Definition shl1_b (a : bit8) : bit8 :=
  let '(a0, (a1, (a2, (a3, (a4, (a5, (a6, _))))))) := a in
  (false, (a0, (a1, (a2, (a3, (a4, (a5, a6))))))).

Definition shr1_b (a : bit8) : bit8 :=
  let '(_, (a1, (a2, (a3, (a4, (a5, (a6, a7))))))) := a in
  (a1, (a2, (a3, (a4, (a5, (a6, (a7, false))))))).

Definition xtime_b (a : bit8) : bit8 :=
  let '(a0, (a1, (a2, (a3, (a4, (a5, (a6, a7))))))) := a in
  (a7, (xorb a0 a7, (a1, (xorb a2 a7, (xorb a3 a7, (a4, (a5, a6))))))).

Fixpoint gf_mul_b (bits : list bool) (b : bit8) : bit8 :=
  match bits with
  | [] => zero_b
  | bit :: rest => xor_b (if bit then b else zero_b) (gf_mul_b rest (xtime_b b))
  end.

(** A six-bit value: the two high bits are clear. *)
Definition is_sextet (s : byte) : bool :=
  let '(_, (_, (_, (_, (_, (_, (b6, b7))))))) := Byte.to_bits s in negb b6 && negb b7.

(** The four sextets of three bytes, before the alphabet is applied. *)
Definition sextet0 (a : byte) : byte := Base64.shr a 2.
Definition sextet1 (a b : byte) : byte :=
  Base64.byte_or (Base64.shl (Base64.byte_and a x03) 4) (Base64.shr b 4).
Definition sextet2 (b c : byte) : byte :=
  Base64.byte_or (Base64.shl (Base64.byte_and b x0f) 2) (Base64.shr c 6).
Definition sextet3 (c : byte) : byte := Base64.byte_and c x3f.

(** Round keys of 16 bytes each. *)
Definition round_keys_ok (rks : list bytes) : Prop :=
  Forall (fun rk => length rk = 16%nat) rks.

(** ** Sample data *)

Definition zero_key : bytes := repeat x00 32.

Definition zero_cipher : AESCipher := {| _key := zero_key |}.

Definition iv0 : bytes :=
  [x00; x01; x02; x03; x04; x05; x06; x07; x08; x09; x0a; x0b; x0c; x0d; x0e; x0f].

Definition hello : bytes := Eval vm_compute in list_byte_of_string "hello".

(** 21 bytes: two blocks once padded. *)
Definition two_blocks : bytes :=
  Eval vm_compute in list_byte_of_string "0123456789abcdefhello".

(** The ciphertext of "hello" under the zero key and [iv0]. *)
Definition hello_cipher_text : bytes :=
  [x8c; x2c; x52; xa9; x75; x78; xae; x6d; x2c; xae; x49; x90; x92; x1d; xc0; x9b].

(** The two ciphertext blocks of [two_blocks] under the zero key and [iv0]. *)
Definition two_blocks_cipher_text : bytes :=
  [xef; xc3; x87; xa1; x59; xcf; xa2; xf6; x2d; x64; x34; x4d; x7a; x1e; x3f; x57;
   x31; x9c; xcc; x95; x97; x14; xf6; x9e; xea; xe4; xa8; x81; x48; x63; x23; x44].

Definition two_blocks_blob : bytes :=
  Eval vm_compute in
    list_byte_of_string "78OHoVnPovYtZDRNeh4/VzGczJWXFPae6uSogUhjI0QAAQIDBAUGBwgJCgsMDQ4P".

(** What [decrypt] returns once bit 0 of the first ciphertext byte of
    [two_blocks_blob] is flipped: a garbled first block, and "iello" for
    "hello". *)
Definition two_blocks_tampered : bytes :=
  [xf9; xda; x16; x3c; x57; x64; x4a; x4b; x31; x5d; x9b; x5d; x44; x71; xc5; x11] ++
  list_byte_of_string "iello".

(** ** The file system and the console, as the script uses them

    [os.path.exists], [os.makedirs], [open] and [print] act on the world
    outside the program.  The file system is a parameter with the four
    operations below; a failed operation reports an [OSError] and may still
    have changed the file system.  What was printed is kept line by line. *)

Inductive os_error : Type :=
| OSError (name : string) (path : string).

Class FileSystem (fs : Type) : Type := {
  (** [os.path.exists(path)] *)
  os_path_exists : string -> fs -> bool;
  (** [os.makedirs(path, exist_ok=True)] *)
  os_makedirs : string -> fs -> fs * option os_error;
  (** [with open(path, 'rb') as f: f.read()] *)
  read_binary : string -> fs -> bytes + os_error;
  (** [with open(path, 'wb') as f: f.write(data)] *)
  write_binary : string -> bytes -> fs -> fs * option os_error
}.

Record world (fs : Type) : Type := { disk : fs; stdout : list string }.

Arguments disk {fs} w.
Arguments stdout {fs} w.

(** How a run ends: normally, with an exception of the cipher code, or with
    an error of the operating system. *)
Inductive failure : Type :=
| Raised (e : exn)
| OSRaised (e : os_error).

Inductive outcome (A : Type) : Type :=
| Returned (a : A)
| Failed (f : failure).

Arguments Returned {A} a.
Arguments Failed {A} f.

(** A statement of the script: it changes the world and returns or fails;
    the changes made before a failure stay. *)
Definition program (fs A : Type) : Type := world fs -> world fs * outcome A.

Definition ret {fs A : Type} (a : A) : program fs A := fun w => (w, Returned a).

Definition and_then {fs A B : Type} (m : program fs A) (k : A -> program fs B)
  : program fs B :=
  fun w =>
    match m w with
    | (w', Returned a) => k a w'
    | (w', Failed f) => (w', Failed f)
    end.

Notation "x <<- m ;; k" := (and_then m (fun x => k))
  (at level 61, m at next level, right associativity).

Definition of_result {fs A : Type} (r : result A) : program fs A :=
  fun w =>
    match r with
    | Ok a => (w, Returned a)
    | Raise e => (w, Failed (Raised e))
    end.

Definition newline : string := String (ascii_of_nat 10) EmptyString.

Definition input_dir : string := "./input/".
Definition input_file : string := "./input/signature".
Definition output_dir : string := "./output/cryptography/".
Definition encrypted_file : string := "./output/cryptography/encrypted_file".
Definition decrypted_file : string := "./output/cryptography/decrypted_file".

Section Script.

Context {fs : Type} `{FileSystem fs}.

Variables block_encrypt block_decrypt : bytes -> bytes -> bytes.
Variable b64encode : bytes -> bytes.
Variable b64decode : bytes -> result bytes.

Definition path_exists (path : string) : program fs bool :=
  fun w => (w, Returned (os_path_exists path (disk w))).

(** [print(text)] *)
Definition print (text : string) : program fs unit :=
  fun w => ({| disk := disk w; stdout := stdout w ++ [text] |}, Returned tt).

Definition after_os (w : world fs) (r : fs * option os_error) : world fs * outcome unit :=
  ({| disk := fst r; stdout := stdout w |},
   match snd r with
   | None => Returned tt
   | Some e => Failed (OSRaised e)
   end).

Definition makedirs (path : string) : program fs unit :=
  fun w => after_os w (os_makedirs path (disk w)).

Definition read_file (path : string) : program fs bytes :=
  fun w =>
    match read_binary path (disk w) with
    | inl data => (w, Returned data)
    | inr e => (w, Failed (OSRaised e))
    end.

Definition write_file (path : string) (data : bytes) : program fs unit :=
  fun w => after_os w (write_binary path data (disk w)).

(** [ensure_directory_exists(path)] *)
Definition ensure_directory_exists (path : string) : program fs unit :=
  present <<- path_exists path ;;
  if negb present then
    _ <<- print (newline ++ "Creating directory: " ++ path) ;;
    makedirs path
  else ret tt.

(** [main()], [key] and [iv] being what [os.urandom(32)] and the
    [os.urandom(AESCipher.block_size)] of [encrypt] returned. *)
Definition main (key iv : bytes) : program fs unit :=
  aes <<- of_result (__init__ key) ;;
  _ <<- ensure_directory_exists input_dir ;;
  original <<- read_file input_file ;;
  encrypted <<- of_result (encrypt block_encrypt b64encode aes iv original) ;;
  _ <<- ensure_directory_exists output_dir ;;
  _ <<- write_file encrypted_file encrypted ;;
  decrypted <<- of_result (decrypt block_decrypt b64decode aes encrypted) ;;
  write_file decrypted_file decrypted.

End Script.

(** What the properties of [main] ask of the file system. *)

(** A file reads back as it was written. *)
Definition written_is_read (fs : Type) `{FileSystem fs} : Prop :=
  forall (path : string) (data : bytes) (d d' : fs),
    write_binary path data d = (d', None) -> read_binary path d' = inl data.

(** Writing one file leaves another as it is. *)
Definition write_keeps (fs : Type) `{FileSystem fs} (written kept : string) : Prop :=
  forall (data : bytes) (d d' : fs),
    write_binary written data d = (d', None) -> read_binary kept d' = read_binary kept d.

(** A created directory exists. *)
Definition makedirs_creates (fs : Type) `{FileSystem fs} : Prop :=
  forall (path : string) (d d' : fs),
    os_makedirs path d = (d', None) -> os_path_exists path d' = true.

(** Creating a directory leaves a file as it is. *)
Definition makedirs_keeps (fs : Type) `{FileSystem fs} (kept : string) : Prop :=
  forall (path : string) (d d' : fs) (e : option os_error),
    os_makedirs path d = (d', e) -> read_binary kept d' = read_binary kept d.

(** A file system that is a table of directories and files, each under the
    path as written: enough to run [main]. *)
Record table_fs : Type := { directories : list string; files : list (string * bytes) }.

Definition table_lookup (path : string) (t : table_fs) : option (string * bytes) :=
  find (fun entry => String.eqb path (fst entry)) (files t).

#[export] Instance table_FileSystem : FileSystem table_fs := {
  os_path_exists path t :=
    existsb (String.eqb path) (directories t) ||
    match table_lookup path t with Some _ => true | None => false end;
  os_makedirs path t :=
    ({| directories := path :: directories t; files := files t |}, None);
  read_binary path t :=
    match table_lookup path t with
    | Some entry => inl (snd entry)
    | None => inr (OSError "FileNotFoundError" path)
    end;
  write_binary path data t :=
    ({| directories := directories t; files := (path, data) :: files t |}, None)
}.

Abbreviation aes_main :=
  (@main table_fs table_FileSystem
         AES.encrypt_block AES.decrypt_block Base64.b64encode Base64.b64decode).

(** A disk with [./input/signature] holding "hello", and an empty one. *)
Definition sample_world : world table_fs :=
  {| disk := {| directories := [input_dir]; files := [(input_file, hello)] |};
     stdout := [] |}.

Definition empty_world : world table_fs :=
  {| disk := {| directories := []; files := [] |}; stdout := [] |}.

(** What [aes_main] leaves of [sample_world] under the zero key and [iv0]. *)
Definition sample_world_after : world table_fs :=
  Eval vm_compute in fst (aes_main zero_key iv0 sample_world).

(** Another key. *)
Definition ones_key : bytes := repeat x01 32.

(** * Properties *)

(** ** Built-in operations *)

Lemma len_nonneg {A} (l : list A) : 0 <= Py.len l.
Proof. unfold Py.len; lia. Qed.

Lemma len_app {A} (l1 l2 : list A) : Py.len (l1 ++ l2) = Py.len l1 + Py.len l2.
Proof. unfold Py.len; rewrite length_app; lia. Qed.

Lemma len_repeat {A} (x : A) (n : nat) : Py.len (repeat x n) = Z.of_nat n.
Proof. unfold Py.len; now rewrite repeat_length. Qed.

Lemma block_size_16 : block_size = 16.
Proof. reflexivity. Qed.

(** A negative stop [-n] with [n <= len l] keeps the first [len l - n] items. *)
Lemma slice_to_neg {A} (l : list A) (n : Z) :
  0 < n <= Py.len l -> Py.slice_to l (- n) = firstn (Z.to_nat (Py.len l - n)) l.
Proof.
  intros Hn. unfold Py.slice_to, Py.clamp.
  destruct (Z.ltb_spec (- n) 0); [|lia].
  f_equal. lia.
Qed.

Lemma slice_to_neg_big {A} (l : list A) (n : Z) :
  Py.len l <= n -> 0 < n -> Py.slice_to l (- n) = [].
Proof.
  intros Hn Hp. unfold Py.slice_to, Py.clamp.
  destruct (Z.ltb_spec (- n) 0); [|lia].
  replace (Z.to_nat (Z.max 0 (Py.len l + - n))) with 0%nat by lia. reflexivity.
Qed.

Lemma slice_to_0 {A} (l : list A) : Py.slice_to l 0 = [].
Proof. unfold Py.slice_to, Py.clamp. simpl. pose proof (len_nonneg l).
  replace (Z.to_nat (Z.min 0 (Py.len l))) with 0%nat by lia. reflexivity. Qed.

Lemma slice_from_neg {A} (l : list A) (n : Z) :
  0 < n <= Py.len l -> Py.slice_from l (- n) = skipn (Z.to_nat (Py.len l - n)) l.
Proof.
  intros Hn. unfold Py.slice_from, Py.clamp.
  destruct (Z.ltb_spec (- n) 0); [|lia].
  f_equal. lia.
Qed.

Lemma slice_from_neg_big {A} (l : list A) (n : Z) :
  Py.len l <= n -> 0 < n -> Py.slice_from l (- n) = l.
Proof.
  intros Hn Hp. unfold Py.slice_from, Py.clamp.
  destruct (Z.ltb_spec (- n) 0); [|lia].
  replace (Z.to_nat (Z.max 0 (Py.len l + - n))) with 0%nat by lia. reflexivity.
Qed.

(** The two slices of [decrypt] split a sequence that ends in [n] items. *)
Lemma slice_split {A} (l1 l2 : list A) :
  0 < Py.len l2 ->
  Py.slice_to (l1 ++ l2) (- Py.len l2) = l1 /\ Py.slice_from (l1 ++ l2) (- Py.len l2) = l2.
Proof.
  intros H. pose proof (len_nonneg l1).
  rewrite slice_to_neg, slice_from_neg by (rewrite len_app; lia).
  rewrite len_app. replace (Z.to_nat (Py.len l1 + Py.len l2 - Py.len l2)) with (length l1)
    by (unfold Py.len; lia).
  split.
  - rewrite firstn_app, Nat.sub_diag, firstn_all. simpl. apply app_nil_r.
  - rewrite skipn_app, Nat.sub_diag, skipn_all. reflexivity.
Qed.

(** [b[-1]] is the last byte of a non-empty sequence. *)
Lemma getitem_last (b : bytes) (x : byte) :
  Py.getitem (b ++ [x]) (-1) = Ok (Z.of_N (Byte.to_N x)).
Proof.
  unfold Py.getitem. rewrite len_app. pose proof (len_nonneg b).
  change (Py.len [x]) with 1. change (-1 <? 0) with true. cbv iota.
  destruct (Z.ltb_spec (Py.len b + 1 + -1) 0); [lia|].
  destruct (Z.leb_spec (Py.len b + 1) (Py.len b + 1 + -1)); [lia|]. simpl orb. cbv iota.
  replace (Z.to_nat (Py.len b + 1 + -1)) with (length b) by (unfold Py.len; lia).
  rewrite nth_error_app2, Nat.sub_diag by lia. reflexivity.
Qed.

Lemma getitem_empty (i : Z) : Py.getitem [] i = Raise (IndexError "index out of range").
Proof.
  unfold Py.getitem. change (Py.len []) with 0.
  destruct (i <? 0) eqn:E.
  - rewrite Z.add_0_l, E. reflexivity.
  - rewrite E. apply Z.ltb_ge in E. destruct (Z.leb_spec 0 i); [reflexivity|lia].
Qed.

Lemma byte_int_range (x : byte) : 0 <= Z.of_N (Byte.to_N x) < 256.
Proof. pose proof (Byte.to_N_bounded x). lia. Qed.

Lemma bytes_of_ints_repeat (z : Z) (b : byte) (n : nat) :
  Byte.of_N (Z.to_N z) = Some b -> 0 <= z < 256 ->
  Py.bytes_of_ints (repeat z n) = Ok (repeat b n).
Proof.
  intros Hb Hz. induction n as [|n IH]; simpl; [reflexivity|].
  destruct (Z.ltb_spec z 0); [lia|]. destruct (Z.leb_spec 256 z); [lia|]. simpl.
  rewrite Hb, IH. reflexivity.
Qed.

(** ** The padding codec *)

Lemma pad_ordinal_range (raw : bytes) :
  1 <= block_size - Py.len raw mod block_size <= block_size.
Proof.
  rewrite block_size_16. pose proof (Z.mod_pos_bound (Py.len raw) 16). lia.
Qed.

(** The padding byte: the ordinal as a byte. *)
Lemma ordinal_byte (n : Z) :
  1 <= n <= block_size -> exists b : byte, Byte.of_N (Z.to_N n) = Some b /\ Z.of_N (Byte.to_N b) = n.
Proof.
  rewrite block_size_16. intros Hn.
  destruct (Byte.of_N (Z.to_N n)) as [b|] eqn:E.
  - exists b. split; [reflexivity|]. apply Byte.to_of_N in E. lia.
  - apply Byte.of_N_None_iff in E. lia.
Qed.

Lemma pad_spec (raw : bytes) :
  exists (n : Z) (b : byte),
    n = block_size - Py.len raw mod block_size /\ 1 <= n <= block_size /\
    Z.of_N (Byte.to_N b) = n /\
    _pad raw = Ok (raw ++ repeat b (Z.to_nat n)).
Proof.
  pose proof (pad_ordinal_range raw) as Hn.
  destruct (ordinal_byte _ Hn) as (b & Hb & Hv).
  exists (block_size - Py.len raw mod block_size), b.
  repeat split; try tauto.
  unfold _pad, Py.list_mul.
  rewrite (bytes_of_ints_repeat _ b) by (rewrite ?block_size_16 in *; auto; lia).
  reflexivity.
Qed.

Lemma unpad_snoc (body : bytes) (x : byte) :
  _unpad (body ++ [x]) = Ok (Py.slice_to (body ++ [x]) (- Z.of_N (Byte.to_N x))).
Proof. unfold _unpad. rewrite getitem_last. reflexivity. Qed.

Lemma nonempty_snoc {A} (l : list A) : l <> [] -> exists body x, l = body ++ [x].
Proof.
  intros H. destruct (exists_last H) as (body & x & ->). eauto.
Qed.

(** C6: [_pad] appends [n] bytes of value [n], where
    [n = block_size - len(raw) mod block_size] lies in [1 .. block_size]; it
    never fails, the padded length is strictly greater than the input length
    and a multiple of the block size, and block-aligned input (16 bytes, say)
    still receives a full block (32 bytes). *)
Theorem pad_appends_ordinal (raw : bytes) :
  exists (n : Z) (b : byte) (padded : bytes),
    n = block_size - Py.len raw mod block_size /\ 1 <= n <= block_size /\
    Z.of_N (Byte.to_N b) = n /\
    _pad raw = Ok padded /\
    padded = raw ++ repeat b (Z.to_nat n) /\
    Py.len padded = Py.len raw + n /\
    Py.len raw < Py.len padded /\
    Py.len padded mod block_size = 0 /\
    (Py.len raw mod block_size = 0 -> Py.len padded = Py.len raw + block_size) /\
    (Py.len raw = 16 -> Py.len padded = 32).
Proof.
  destruct (pad_spec raw) as (n & b & Hn & Hr & Hb & Hp).
  exists n, b, (raw ++ repeat b (Z.to_nat n)).
  assert (Hlen : Py.len (raw ++ repeat b (Z.to_nat n)) = Py.len raw + n)
    by (rewrite len_app, len_repeat; lia).
  rewrite Hlen. rewrite block_size_16 in *.
  repeat split; try tauto; try lia.
  - pose proof (Z.div_mod (Py.len raw) 16 ltac:(lia)) as Hdm.
    replace (Py.len raw + n) with ((Py.len raw / 16 + 1) * 16) by lia.
    apply Z.mod_mul. lia.
  - intros H16. rewrite H16 in Hn. change (16 mod 16) with 0 in Hn. lia.
Qed.

(** Removing the padding that [_pad] appends gives the data back. *)
Lemma unpad_padded (raw : bytes) (b : byte) (n : Z) :
  Z.of_N (Byte.to_N b) = n -> 1 <= n ->
  _unpad (raw ++ repeat b (Z.to_nat n)) = Ok raw.
Proof.
  intros Hb Hn.
  destruct (Z.to_nat n) as [|k] eqn:Hk; [lia|].
  replace (S k) with (k + 1)%nat by lia.
  rewrite repeat_app, app_assoc. cbn [repeat].
  rewrite unpad_snoc, Hb. f_equal.
  rewrite <- app_assoc.
  change [b] with (repeat b 1). rewrite <- repeat_app.
  replace n with (Py.len (repeat b (k + 1))) by (rewrite len_repeat; lia).
  apply slice_split. rewrite len_repeat. lia.
Qed.

(** C9: the padding codec round-trips: [_unpad(_pad(raw)) == raw]. *)
Theorem unpad_pad (raw : bytes) :
  (padded <- _pad raw ;; _unpad padded) = Ok raw.
Proof.
  destruct (pad_spec raw) as (n & b & Hn & Hr & Hb & Hp).
  rewrite Hp. cbn [bind]. apply unpad_padded; [assumption | lia].
Qed.

(** C10: on a non-empty sequence [_unpad] validates nothing and returns a
    prefix: the first [len(b) - b[-1]] bytes when [0 < b[-1] < len(b)], the
    empty sequence when [b[-1] == 0] or [b[-1] >= len(b)]; on the empty
    sequence it fails with an out-of-range [IndexError]. *)
Theorem unpad_no_validation (b : bytes) :
  (b <> [] ->
   exists n : Z,
     Py.getitem b (-1) = Ok n /\
     (0 < n < Py.len b ->
      _unpad b = Ok (firstn (Z.to_nat (Py.len b - n)) b)) /\
     (n = 0 \/ Py.len b <= n -> _unpad b = Ok []) /\
     exists (kept dropped : bytes), _unpad b = Ok kept /\ b = kept ++ dropped) /\
  (b = [] -> _unpad b = Raise (IndexError "index out of range")).
Proof.
  split.
  - intros Hne. destruct (nonempty_snoc b Hne) as (body & x & ->).
    exists (Z.of_N (Byte.to_N x)). pose proof (byte_int_range x) as Hx.
    rewrite getitem_last, unpad_snoc. split; [reflexivity|]. repeat split.
    + intros Hn. rewrite slice_to_neg by lia. reflexivity.
    + intros [H0 | Hbig].
      * rewrite H0. simpl (- 0). now rewrite slice_to_0.
      * destruct (Z.eq_dec (Z.of_N (Byte.to_N x)) 0) as [H0|H0].
        -- rewrite H0. simpl (- 0). now rewrite slice_to_0.
        -- rewrite slice_to_neg_big by lia. reflexivity.
    + unfold Py.slice_to. eexists _, _. split; [reflexivity|].
      symmetry. apply firstn_skipn.
  - intros ->. unfold _unpad. rewrite getitem_empty. reflexivity.
Qed.

(** C4, as the code has it: [_unpad] reads the last byte [n] and checks
    nothing.  Whenever [1 <= n <= len(padded)] it returns the input with the
    last [n] bytes removed, whatever those bytes are and also when
    [n > block_size]; when [n] is 0 or exceeds the length it returns the empty
    sequence instead of failing. *)
Theorem unpad_removes_last_n (body : bytes) (x : byte) :
  let padded := body ++ [x] in
  let n := Z.of_N (Byte.to_N x) in
  (1 <= n <= Py.len padded ->
   exists kept removed : bytes,
     padded = kept ++ removed /\ Py.len removed = n /\ _unpad padded = Ok kept) /\
  (n = 0 \/ Py.len padded < n -> _unpad padded = Ok []).
Proof.
  intros padded n. subst padded. rewrite unpad_snoc. fold n. split.
  - intros Hn. rewrite slice_to_neg by lia.
    exists (firstn (Z.to_nat (Py.len (body ++ [x]) - n)) (body ++ [x])),
           (skipn (Z.to_nat (Py.len (body ++ [x]) - n)) (body ++ [x])).
    split; [symmetry; apply firstn_skipn|]. split; [|reflexivity].
    unfold Py.len in *. rewrite length_skipn. lia.
  - intros [H0 | Hbig].
    + rewrite H0. simpl (- 0). now rewrite slice_to_0.
    + rewrite slice_to_neg_big; [reflexivity| lia |]. pose proof (len_nonneg (body ++ [x])). lia.
Qed.

(** C4 as stated fails: a zero last byte, a last byte beyond the length,
    padding bytes that differ from the last byte and a last byte above the
    block size are all accepted. *)
Lemma unpad_accepts_invalid_padding :
  _unpad [x41; x00] = Ok [] /\
  _unpad [x41; x05] = Ok [] /\
  _unpad [x41; x42; x03; x02] = Ok [x41; x42] /\
  _unpad (repeat x41 19 ++ [x11]) = Ok [x41; x41; x41].
Proof. repeat split. Qed.

(** ** The key check *)

(** C5: a key whose bit length is not 256 is refused at construction with the
    [ValueError] that names the requirement, a 32-byte key is accepted and
    stored unchanged; the check is a pure function of the key's length. *)
Theorem init_key_size (key : bytes) :
  (Py.len key * 8 <> 256 ->
   __init__ key = Raise (ValueError "Invalid key size (must be 256 bit)")) /\
  (Py.len key * 8 = 256 -> __init__ key = Ok {| _key := key |}) /\
  (Py.len key * 8 = 256 <-> Py.len key = 32) /\
  __init__ (repeat x00 16) = Raise (ValueError "Invalid key size (must be 256 bit)") /\
  __init__ (repeat x00 24) = Raise (ValueError "Invalid key size (must be 256 bit)") /\
  __init__ (repeat x00 63) = Raise (ValueError "Invalid key size (must be 256 bit)") /\
  __init__ (repeat x00 64) = Raise (ValueError "Invalid key size (must be 256 bit)") /\
  __init__ [] = Raise (ValueError "Invalid key size (must be 256 bit)") /\
  __init__ (repeat x00 32) = Ok {| _key := repeat x00 32 |}.
Proof.
  unfold __init__. repeat split; try reflexivity; try lia.
  - intros H. destruct (Z.eqb_spec (Py.len key * 8) 256); [lia | reflexivity].
  - intros H. destruct (Z.eqb_spec (Py.len key * 8) 256); [reflexivity | lia].
Qed.

(** A constructed cipher holds the key it was given, 32 bytes long. *)
Lemma init_inv (key : bytes) (self : AESCipher) :
  __init__ key = Ok self -> _key self = key /\ length key = 32%nat.
Proof.
  unfold __init__. destruct (Z.eqb_spec (Py.len key * 8) 256) as [H|H]; simpl; [|discriminate].
  intros [= <-]. split; [reflexivity|]. unfold Py.len in H. lia.
Qed.

(** ** Bytes as eight bits *)

Lemma to_bits_inj (a b : byte) : Byte.to_bits a = Byte.to_bits b -> a = b.
Proof.
  intros H. rewrite <- (Byte.of_bits_to_bits a), <- (Byte.of_bits_to_bits b), H.
  reflexivity.
Qed.

(** Every operation on bytes acts on the bits as its bit-level twin. *)
Ltac bits_twin :=
  intros;
  repeat match goal with
    | |- context [Byte.to_bits ?a] =>
        is_var a; destruct (Byte.to_bits a) as [? [? [? [? [? [? [? ?]]]]]]]
    end;
  apply Byte.to_bits_of_bits.

Lemma to_bits_xor (a b : byte) :
  Byte.to_bits (byte_xor a b) = xor_b (Byte.to_bits a) (Byte.to_bits b).
Proof. unfold byte_xor, xor_b. bits_twin. Qed.

Lemma to_bits_or (a b : byte) :
  Byte.to_bits (Base64.byte_or a b) = or_b (Byte.to_bits a) (Byte.to_bits b).
Proof. unfold Base64.byte_or, or_b. bits_twin. Qed.

Lemma to_bits_and (a b : byte) :
  Byte.to_bits (Base64.byte_and a b) = and_b (Byte.to_bits a) (Byte.to_bits b).
Proof. unfold Base64.byte_and, and_b. bits_twin. Qed.

Lemma to_bits_shl1 (a : byte) : Byte.to_bits (Base64.shl1 a) = shl1_b (Byte.to_bits a).
Proof. unfold Base64.shl1, shl1_b. bits_twin. Qed.

Lemma to_bits_shr1 (a : byte) : Byte.to_bits (Base64.shr1 a) = shr1_b (Byte.to_bits a).
Proof. unfold Base64.shr1, shr1_b. bits_twin. Qed.

Lemma to_bits_shl (a : byte) (n : nat) :
  Byte.to_bits (Base64.shl a n) = Nat.iter n shl1_b (Byte.to_bits a).
Proof.
  unfold Base64.shl. induction n as [|n IH]; [reflexivity|].
  change (Nat.iter (S n) Base64.shl1 a) with (Base64.shl1 (Nat.iter n Base64.shl1 a)).
  now rewrite to_bits_shl1, IH.
Qed.

Lemma to_bits_shr (a : byte) (n : nat) :
  Byte.to_bits (Base64.shr a n) = Nat.iter n shr1_b (Byte.to_bits a).
Proof.
  unfold Base64.shr. induction n as [|n IH]; [reflexivity|].
  change (Nat.iter (S n) Base64.shr1 a) with (Base64.shr1 (Nat.iter n Base64.shr1 a)).
  now rewrite to_bits_shr1, IH.
Qed.

Lemma to_bits_xtime (a : byte) : Byte.to_bits (AES.xtime a) = xtime_b (Byte.to_bits a).
Proof. unfold AES.xtime, xtime_b. bits_twin. Qed.

Lemma to_bits_gf_mul (c a : byte) :
  Byte.to_bits (AES.gf_mul c a) = gf_mul_b (AES.bits_of c) (Byte.to_bits a).
Proof.
  unfold AES.gf_mul. generalize (AES.bits_of c) as bits. intros bits. revert a.
  induction bits as [|bit rest IH]; intros a; [reflexivity|].
  cbn [AES.gf_mul_bits gf_mul_b]. rewrite to_bits_xor, IH, to_bits_xtime.
  destruct bit; reflexivity.
Qed.

Lemma to_bits_xor4 (a b c d : byte) :
  Byte.to_bits (AES.xor4 a b c d) =
  xor_b (Byte.to_bits a) (xor_b (Byte.to_bits b) (xor_b (Byte.to_bits c) (Byte.to_bits d))).
Proof. unfold AES.xor4. now rewrite !to_bits_xor. Qed.

Ltac split_bits :=
  repeat match goal with
    | |- context [Byte.to_bits ?a] =>
        is_var a; destruct (Byte.to_bits a) as [? [? [? [? [? [? [? ?]]]]]]]
    end.

Ltac pair_eq :=
  repeat lazymatch goal with
    | |- (_, _) = (_, _) => apply f_equal2
    end.

(** An equation between bytes built from the bitwise operations, decided
    bit by bit. *)
Ltac bitwise :=
  intros; apply to_bits_inj;
  repeat (rewrite ?to_bits_xor, ?to_bits_or, ?to_bits_and, ?to_bits_shl, ?to_bits_shr,
            ?to_bits_xtime, ?to_bits_gf_mul, ?to_bits_xor4);
  split_bits;
  cbv [Byte.to_bits AES.bits_of Nat.iter nat_rect
       xor_b or_b and_b shl1_b shr1_b xtime_b gf_mul_b zero_b];
  pair_eq; btauto.

Lemma byte_xor_comm (a b : byte) : byte_xor a b = byte_xor b a.
Proof. bitwise. Qed.

Lemma byte_xor_nilpotent (a : byte) : byte_xor a a = x00.
Proof. bitwise. Qed.

Lemma byte_xor_cancel_r (a b : byte) : byte_xor (byte_xor a b) b = a.
Proof. bitwise. Qed.

Lemma xor_bytes_length (a b : bytes) :
  length (xor_bytes a b) = Nat.min (length a) (length b).
Proof.
  revert b. induction a as [|x a IH]; intros [|y b]; simpl; auto.
Qed.

Lemma xor_bytes_cancel_r (a b : bytes) :
  (length a <= length b)%nat -> xor_bytes (xor_bytes a b) b = a.
Proof.
  revert b. induction a as [|x a IH]; intros [|y b] H; simpl in *; try reflexivity; try lia.
  rewrite byte_xor_cancel_r, IH by lia. reflexivity.
Qed.

(** ** Tampering *)

Lemma flip_bit_length (data : bytes) (i : nat) : length (flip_bit data i) = length data.
Proof.
  unfold flip_bit. rewrite <- (firstn_skipn (i / 8) data) at 3.
  rewrite !length_app. f_equal. destruct (skipn (i / 8) data); reflexivity.
Qed.

Lemma flip_bit_app (l1 l2 : bytes) (i : nat) :
  (i < 8 * length l1)%nat -> flip_bit (l1 ++ l2) i = flip_bit l1 i ++ l2.
Proof.
  intros Hi. unfold flip_bit.
  assert (Hq : (i / 8 < length l1)%nat) by (apply Nat.Div0.div_lt_upper_bound; lia).
  rewrite firstn_app, skipn_app.
  replace (i / 8 - length l1)%nat with 0%nat by lia. cbn [firstn skipn].
  rewrite app_nil_r, <- app_assoc. f_equal.
  destruct (skipn (i / 8) l1) as [|x rest] eqn:E; [|reflexivity].
  apply (f_equal (@length byte)) in E. rewrite length_skipn in E. cbn [length] in E. lia.
Qed.

Lemma bit_mask_nonzero (k : nat) : (k < 8)%nat -> bit_mask k <> x00.
Proof.
  intros Hk. do 8 (destruct k as [|k]; [discriminate|]). lia.
Qed.

Lemma flip_bit_changes (data : bytes) (i : nat) :
  (i < 8 * length data)%nat -> flip_bit data i <> data.
Proof.
  intros Hi. unfold flip_bit.
  assert (Hq : (i / 8 < length data)%nat) by (apply Nat.Div0.div_lt_upper_bound; lia).
  rewrite <- (firstn_skipn (i / 8) data) at 3.
  destruct (skipn (i / 8) data) as [|x rest] eqn:E.
  - apply (f_equal (@length byte)) in E. rewrite length_skipn in E. cbn [length] in E. lia.
  - intros H. apply app_inv_head in H. injection H as H.
    apply (bit_mask_nonzero (i mod 8)); [apply Nat.mod_upper_bound; lia|].
    rewrite <- (byte_xor_nilpotent x) , <- H at 1.
    rewrite (byte_xor_comm x), byte_xor_cancel_r. reflexivity.
Qed.

(** ** CBC chaining and the encrypt/decrypt pair, over any block cipher *)

Lemma firstn_app_len {A} (l1 l2 : list A) (n : nat) :
  length l1 = n -> firstn n (l1 ++ l2) = l1.
Proof.
  intros <-. rewrite firstn_app, Nat.sub_diag, firstn_all. simpl. apply app_nil_r.
Qed.

Lemma skipn_app_len {A} (l1 l2 : list A) (n : nat) :
  length l1 = n -> skipn n (l1 ++ l2) = l2.
Proof.
  intros <-. rewrite skipn_app, Nat.sub_diag, skipn_all. reflexivity.
Qed.

Section CipherProperties.

Variables block_encrypt block_decrypt : bytes -> bytes -> bytes.
Variable b64encode : bytes -> bytes.
Variable b64decode : bytes -> result bytes.

Lemma cbc_encrypt_length (n : nat) (key prev data : bytes) :
  block_length_ok block_encrypt ->
  length key = 32%nat -> length prev = 16%nat -> length data = (16 * n)%nat ->
  length (cbc_encrypt_blocks block_encrypt n key prev data) = (16 * n)%nat.
Proof.
  intros HE Hk. revert prev data.
  induction n as [|n IH]; intros prev data Hp Hd; [reflexivity|].
  cbn [cbc_encrypt_blocks]. rewrite length_app.
  assert (Hx : length (xor_bytes (firstn 16 data) prev) = 16%nat)
    by (rewrite xor_bytes_length, length_firstn; lia).
  rewrite (HE _ _ Hk Hx), IH; [lia | now apply HE | rewrite length_skipn; lia].
Qed.

Lemma cbc_decrypt_length (n : nat) (key prev data : bytes) :
  block_length_ok block_decrypt ->
  length key = 32%nat -> length prev = 16%nat -> length data = (16 * n)%nat ->
  length (cbc_decrypt_blocks block_decrypt n key prev data) = (16 * n)%nat.
Proof.
  intros HD Hk. revert prev data.
  induction n as [|n IH]; intros prev data Hp Hd; [reflexivity|].
  cbn [cbc_decrypt_blocks]. rewrite length_app.
  assert (Hc : length (firstn 16 data) = 16%nat) by (rewrite length_firstn; lia).
  rewrite xor_bytes_length, (HD _ _ Hk Hc), IH; [lia | assumption | rewrite length_skipn; lia].
Qed.

(** CBC decryption undoes CBC encryption, block by block. *)
Lemma cbc_decrypt_encrypt (n : nat) (key prev data : bytes) :
  block_length_ok block_encrypt -> block_inverse block_encrypt block_decrypt ->
  length key = 32%nat -> length prev = 16%nat -> length data = (16 * n)%nat ->
  cbc_decrypt_blocks block_decrypt n key prev
    (cbc_encrypt_blocks block_encrypt n key prev data) = data.
Proof.
  intros HE HI Hk. revert prev data.
  induction n as [|n IH]; intros prev data Hp Hd.
  - destruct data; [reflexivity | discriminate].
  - cbn [cbc_encrypt_blocks cbc_decrypt_blocks].
    assert (Hx : length (xor_bytes (firstn 16 data) prev) = 16%nat)
      by (rewrite xor_bytes_length, length_firstn; lia).
    pose proof (HE _ _ Hk Hx) as Hc.
    rewrite (firstn_app_len _ _ _ Hc), (skipn_app_len _ _ _ Hc).
    rewrite (HI _ _ Hk Hx), xor_bytes_cancel_r by (rewrite length_firstn; lia).
    rewrite IH; [apply firstn_skipn | assumption | rewrite length_skipn; lia].
Qed.


Lemma algorithms_AES_ok (key : bytes) : length key = 32%nat -> algorithms_AES key = Ok key.
Proof. intros H. unfold algorithms_AES, Py.len. rewrite H. reflexivity. Qed.

Lemma new_Cipher_spec (key iv : bytes) :
  length key = 32%nat ->
  new_Cipher key iv =
  if Py.len iv =? 16 then Ok {| cipher_key := key; cipher_iv := iv |}
  else Raise (ValueError ("Invalid IV size (" ++ repr_int (Py.len iv) ++ ") for CBC.")).
Proof.
  intros H. unfold new_Cipher. unfold Py.len at 1. rewrite H.
  change (256 <? Z.of_nat 32 * 8) with false. cbv iota.
  unfold AES_block_size_bits.
  destruct (Z.eqb_spec (Py.len iv * 8) 128), (Z.eqb_spec (Py.len iv) 16);
    try reflexivity; lia.
Qed.

Lemma cipher_spec (key iv : bytes) (self : AESCipher) :
  __init__ key = Ok self ->
  _cipher self iv =
  if Py.len iv =? 16 then Ok {| cipher_key := key; cipher_iv := iv |}
  else Raise (ValueError ("Invalid IV size (" ++ repr_int (Py.len iv) ++ ") for CBC.")).
Proof.
  intros Hinit. destruct (init_inv _ _ Hinit) as [Hkey Hk].
  unfold _cipher. rewrite Hkey, (algorithms_AES_ok _ Hk). cbn [bind].
  now apply new_Cipher_spec.
Qed.

Lemma cipher_ok (key iv : bytes) (self : AESCipher) :
  __init__ key = Ok self -> length iv = 16%nat ->
  _cipher self iv = Ok {| cipher_key := key; cipher_iv := iv |}.
Proof.
  intros Hinit Hiv. rewrite (cipher_spec _ _ _ Hinit).
  unfold Py.len. rewrite Hiv. reflexivity.
Qed.

Lemma cipher_bad_iv (key iv : bytes) (self : AESCipher) :
  __init__ key = Ok self -> Py.len iv <> 16 ->
  _cipher self iv =
  Raise (ValueError ("Invalid IV size (" ++ repr_int (Py.len iv) ++ ") for CBC.")).
Proof.
  intros Hinit Hiv. rewrite (cipher_spec _ _ _ Hinit).
  destruct (Z.eqb_spec (Py.len iv) 16); [contradiction | reflexivity].
Qed.

(** What [encrypt] returns: base64 of the CBC ciphertext of the padded
    plaintext, followed by the IV. *)
Lemma encrypt_spec (key iv raw : bytes) (self : AESCipher) :
  __init__ key = Ok self -> length iv = 16%nat ->
  exists (padded : bytes) (n : nat),
    _pad raw = Ok padded /\ length padded = (16 * n)%nat /\ (1 <= n)%nat /\
    Z.of_nat n = Py.len raw / block_size + 1 /\
    (padded' <- _pad raw ;; _unpad padded') = Ok raw /\
    encrypt block_encrypt b64encode self iv raw =
    Ok (b64encode (cbc_encrypt_blocks block_encrypt n key iv padded ++ iv)).
Proof.
  intros Hinit Hiv.
  destruct (pad_spec raw) as (k & b & Hk & Hr & Hb & Hp).
  rewrite block_size_16 in *.
  pose proof (len_nonneg raw) as Hnn.
  pose proof (Z.div_mod (Py.len raw) 16 ltac:(lia)) as Hdm.
  pose proof (Z.div_pos (Py.len raw) 16 ltac:(lia) ltac:(lia)) as Hq.
  exists (raw ++ repeat b (Z.to_nat k)), (Z.to_nat (Py.len raw / 16 + 1)).
  assert (HL : Py.len (raw ++ repeat b (Z.to_nat k)) = (Py.len raw / 16 + 1) * 16)
    by (rewrite len_app, len_repeat; lia).
  split; [assumption|]. split; [unfold Py.len in *; lia|]. split; [lia|]. split; [lia|].
  split; [rewrite Hp; cbn [bind]; apply unpad_padded; [assumption | lia]|].
  unfold encrypt. rewrite (cipher_ok _ _ _ Hinit Hiv). cbn [bind]. rewrite Hp. cbn [bind].
  unfold encryptor_run. rewrite block_size_16, HL, Z.mod_mul, Z.div_mul by lia.
  reflexivity.
Qed.

(** What [decrypt] does with the encoding of [cipher_text ++ iv]. *)
Lemma decrypt_sealed (key iv ct : bytes) (self : AESCipher) (n : nat) :
  codec_inverse b64encode b64decode ->
  __init__ key = Ok self -> length iv = 16%nat -> length ct = (16 * n)%nat ->
  decrypt block_decrypt b64decode self (b64encode (ct ++ iv)) =
  _unpad (cbc_decrypt_blocks block_decrypt n key iv ct).
Proof.
  intros Hcodec Hinit Hiv Hct. unfold decrypt. rewrite Hcodec. cbn [bind].
  assert (Hl : Py.len iv = 16) by (unfold Py.len; lia).
  rewrite block_size_16, <- Hl.
  destruct (slice_split ct iv ltac:(lia)) as [-> ->].
  rewrite (cipher_ok _ _ _ Hinit Hiv). cbn [bind].
  unfold decryptor_run. cbn [cipher_key cipher_iv]. rewrite block_size_16.
  replace (Py.len ct) with (Z.of_nat n * 16) by (unfold Py.len; lia).
  rewrite Z.mod_mul, Z.div_mul, Nat2Z.id by lia. reflexivity.
Qed.

Lemma unpad_nonempty (padded : bytes) :
  padded <> [] -> exists out : bytes, _unpad padded = Ok out.
Proof.
  intros H. destruct (nonempty_snoc _ H) as (body & x & ->).
  rewrite unpad_snoc. eauto.
Qed.

End CipherProperties.


(** ** AES: the inverse cipher undoes the cipher *)

Lemma inv_sbox_sbox (b : byte) : AES.inv_sbox (AES.sbox b) = b.
Proof. destruct b; reflexivity. Qed.

Lemma inv_sub_bytes_sub_bytes (st : bytes) : AES.inv_sub_bytes (AES.sub_bytes st) = st.
Proof.
  unfold AES.inv_sub_bytes, AES.sub_bytes. rewrite map_map.
  induction st as [|b st IH]; simpl; [reflexivity|].
  now rewrite inv_sbox_sbox, IH.
Qed.

Lemma inv_shift_rows_shift_rows (st : bytes) : AES.inv_shift_rows (AES.shift_rows st) = st.
Proof.
  do 16 (destruct st as [|? st]; [reflexivity|]). destruct st; reflexivity.
Qed.

Lemma shift_rows_length (st : bytes) : length (AES.shift_rows st) = length st.
Proof.
  do 16 (destruct st as [|? st]; [reflexivity|]). destruct st; reflexivity.
Qed.

Lemma inv_shift_rows_length (st : bytes) : length (AES.inv_shift_rows st) = length st.
Proof.
  do 16 (destruct st as [|? st]; [reflexivity|]). destruct st; reflexivity.
Qed.

Lemma inv_mix_column_mix_column (a0 a1 a2 a3 : byte) (rest : bytes) :
  AES.inv_mix_columns (AES.mix_column a0 a1 a2 a3 ++ rest) =
  [a0; a1; a2; a3] ++ AES.inv_mix_columns rest.
Proof.
  unfold AES.mix_column. cbn [app AES.inv_mix_columns]. unfold AES.inv_mix_column.
  cbn [app]. do 3 (f_equal; [bitwise|]). f_equal. bitwise.
Qed.

(** Lists taken four items at a time. *)
Lemma list_ind4 {A} (P : list A -> Prop) :
  (forall l, (length l < 4)%nat -> P l) ->
  (forall a b c d l, P l -> P (a :: b :: c :: d :: l)) ->
  forall l, P l.
Proof.
  intros Hshort Hstep.
  assert (H : forall n l, (length l <= n)%nat -> P l).
  { induction n as [|n IH]; intros l Hl.
    - apply Hshort. lia.
    - destruct l as [|a [|b [|c [|d l]]]]; try (apply Hshort; simpl; lia).
      apply Hstep, IH. simpl in Hl. lia. }
  intros l. apply (H (length l)). lia.
Qed.

Lemma mix_columns_short (st : bytes) : (length st < 4)%nat -> AES.mix_columns st = st.
Proof. destruct st as [|a [|b [|c [|d l]]]]; simpl; try reflexivity; lia. Qed.

Lemma inv_mix_columns_short (st : bytes) : (length st < 4)%nat -> AES.inv_mix_columns st = st.
Proof. destruct st as [|a [|b [|c [|d l]]]]; simpl; try reflexivity; lia. Qed.

Lemma inv_mix_columns_mix_columns (st : bytes) :
  AES.inv_mix_columns (AES.mix_columns st) = st.
Proof.
  induction st as [st Hs | a b c d st IH] using list_ind4.
  - now rewrite mix_columns_short, inv_mix_columns_short.
  - cbn [AES.mix_columns]. rewrite inv_mix_column_mix_column, IH. reflexivity.
Qed.

Lemma mix_columns_length (st : bytes) : length (AES.mix_columns st) = length st.
Proof.
  induction st as [st Hs | a b c d st IH] using list_ind4.
  - now rewrite mix_columns_short.
  - cbn [AES.mix_columns]. rewrite length_app, IH. reflexivity.
Qed.

Lemma inv_mix_columns_length (st : bytes) : length (AES.inv_mix_columns st) = length st.
Proof.
  induction st as [st Hs | a b c d st IH] using list_ind4.
  - now rewrite inv_mix_columns_short.
  - cbn [AES.inv_mix_columns]. rewrite length_app, IH. reflexivity.
Qed.

Lemma add_round_key_length (st rk : bytes) :
  length st = 16%nat -> length rk = 16%nat -> length (AES.add_round_key st rk) = 16%nat.
Proof. intros Hs Hk. unfold AES.add_round_key. rewrite xor_bytes_length. lia. Qed.

Lemma round_length (st rk : bytes) :
  length st = 16%nat -> length rk = 16%nat -> length (AES.round st rk) = 16%nat.
Proof.
  intros Hs Hk. unfold AES.round. apply add_round_key_length; [|assumption].
  unfold AES.sub_bytes. now rewrite mix_columns_length, shift_rows_length, length_map.
Qed.

Lemma final_round_length (st rk : bytes) :
  length st = 16%nat -> length rk = 16%nat -> length (AES.final_round st rk) = 16%nat.
Proof.
  intros Hs Hk. unfold AES.final_round. apply add_round_key_length; [|assumption].
  unfold AES.sub_bytes. now rewrite shift_rows_length, length_map.
Qed.

Lemma rounds_length (rks : list bytes) (st : bytes) :
  round_keys_ok rks -> length st = 16%nat -> length (AES.rounds st rks) = 16%nat.
Proof.
  intros Hk. revert st. induction Hk as [|rk rks Hrk Hrks IH]; intros st Hs; [assumption|].
  cbn [AES.rounds]. destruct rks as [|rk' rks].
  - now apply final_round_length.
  - apply IH. now apply round_length.
Qed.

Lemma inv_round_round (st rk : bytes) :
  length st = 16%nat -> length rk = 16%nat ->
  AES.inv_sub_bytes (AES.inv_shift_rows (AES.inv_mix_columns
    (AES.add_round_key (AES.round st rk) rk))) = st.
Proof.
  intros Hs Hk. unfold AES.round, AES.add_round_key.
  rewrite xor_bytes_cancel_r.
  - now rewrite inv_mix_columns_mix_columns, inv_shift_rows_shift_rows,
      inv_sub_bytes_sub_bytes.
  - unfold AES.sub_bytes. rewrite mix_columns_length, shift_rows_length, length_map. lia.
Qed.

Lemma inv_final_round (st rk : bytes) :
  length st = 16%nat -> length rk = 16%nat ->
  AES.inv_sub_bytes (AES.inv_shift_rows (AES.add_round_key (AES.final_round st rk) rk)) = st.
Proof.
  intros Hs Hk. unfold AES.final_round, AES.add_round_key.
  rewrite xor_bytes_cancel_r.
  - now rewrite inv_shift_rows_shift_rows, inv_sub_bytes_sub_bytes.
  - unfold AES.sub_bytes. rewrite shift_rows_length, length_map. lia.
Qed.

Lemma inv_rounds_rounds (rks : list bytes) (st : bytes) :
  round_keys_ok rks -> length st = 16%nat -> AES.inv_rounds rks (AES.rounds st rks) = st.
Proof.
  intros Hk. revert st. induction Hk as [|rk rks Hrk Hrks IH]; intros st Hs; [reflexivity|].
  cbn [AES.rounds AES.inv_rounds]. destruct rks as [|rk' rks].
  - now apply inv_final_round.
  - rewrite IH by now apply round_length. now apply inv_round_round.
Qed.

Lemma inv_cipher_cipher (rks : list bytes) (block : bytes) :
  round_keys_ok rks -> length block = 16%nat ->
  AES.inv_cipher rks (AES.cipher rks block) = block.
Proof.
  intros Hk Hb. destruct Hk as [|rk0 rks Hrk0 Hrks]; [reflexivity|].
  cbn [AES.cipher AES.inv_cipher].
  rewrite inv_rounds_rounds by (auto using add_round_key_length).
  unfold AES.add_round_key. apply xor_bytes_cancel_r. lia.
Qed.

Lemma cipher_length (rks : list bytes) (block : bytes) :
  round_keys_ok rks -> length block = 16%nat -> length (AES.cipher rks block) = 16%nat.
Proof.
  intros Hk Hb. destruct Hk as [|rk0 rks Hrk0 Hrks]; [assumption|].
  cbn [AES.cipher]. apply rounds_length; auto using add_round_key_length.
Qed.

Lemma round_keys_ok_forallb (rks : list bytes) :
  forallb (fun rk => (length rk =? 16)%nat) rks = true -> round_keys_ok rks.
Proof.
  intros H. apply Forall_forall. intros rk Hin.
  rewrite forallb_forall in H. apply Nat.eqb_eq. now apply H.
Qed.

(** The fifteen round keys of a 256-bit key have 16 bytes each. *)
Lemma key_expansion_ok (key : bytes) :
  length key = 32%nat -> round_keys_ok (AES.key_expansion key).
Proof.
  intros H.
  do 32 (destruct key as [|? key]; [discriminate H|]).
  destruct key; [clear H | discriminate H].
  apply round_keys_ok_forallb.
  vm_compute. reflexivity.
Qed.

(** AES keeps the block length. *)
Lemma AES_encrypt_block_length : block_length_ok AES.encrypt_block.
Proof.
  intros key block Hk Hb. unfold AES.encrypt_block.
  apply cipher_length; [now apply key_expansion_ok | assumption].
Qed.

(** AES decryption of a block undoes its encryption. *)
Lemma AES_decrypt_encrypt_block : block_inverse AES.encrypt_block AES.decrypt_block.
Proof.
  intros key block Hk Hb. unfold AES.encrypt_block, AES.decrypt_block.
  apply inv_cipher_cipher; [now apply key_expansion_ok | assumption].
Qed.

Lemma inv_rounds_length (rks : list bytes) (st : bytes) :
  round_keys_ok rks -> length st = 16%nat -> length (AES.inv_rounds rks st) = 16%nat.
Proof.
  intros Hk Hs. induction Hk as [|rk rks Hrk Hrks IH]; [assumption|].
  cbn [AES.inv_rounds]. unfold AES.inv_sub_bytes. destruct rks as [|rk' rks].
  - rewrite length_map, inv_shift_rows_length. now apply add_round_key_length.
  - rewrite length_map, inv_shift_rows_length, inv_mix_columns_length.
    now apply add_round_key_length.
Qed.

Lemma AES_decrypt_block_length : block_length_ok AES.decrypt_block.
Proof.
  intros key block Hk Hb. unfold AES.decrypt_block.
  pose proof (key_expansion_ok key Hk) as Hrk.
  destruct Hrk as [|rk0 rks Hrk0 Hrks]; [assumption|].
  cbn [AES.inv_cipher]. apply add_round_key_length; [|assumption].
  now apply inv_rounds_length.
Qed.

(** ** base64: decoding undoes encoding *)

Lemma table_a2b_b2a (s : byte) :
  is_sextet s = true ->
  Byte.eqb (Base64.table_b2a s) Base64.pad_char = false /\
  Base64.table_a2b (Base64.table_b2a s) = Some s.
Proof. destruct s; intros H; try discriminate H; split; reflexivity. Qed.

Ltac sextet_bits :=
  intros; unfold is_sextet, sextet0, sextet1, sextet2, sextet3;
  repeat (rewrite ?to_bits_or, ?to_bits_and, ?to_bits_shl, ?to_bits_shr);
  split_bits;
  cbv [Byte.to_bits Nat.iter nat_rect or_b and_b shl1_b shr1_b];
  btauto.

Lemma sextet0_ok (a : byte) : is_sextet (sextet0 a) = true.
Proof. sextet_bits. Qed.
Lemma sextet1_ok (a b : byte) : is_sextet (sextet1 a b) = true.
Proof. sextet_bits. Qed.
Lemma sextet2_ok (b c : byte) : is_sextet (sextet2 b c) = true.
Proof. sextet_bits. Qed.
Lemma sextet3_ok (c : byte) : is_sextet (sextet3 c) = true.
Proof. sextet_bits. Qed.

(** The three bytes of four sextets, as the decoder assembles them. *)
Lemma decode_byte0 (a b : byte) :
  Base64.byte_or (Base64.shl (sextet0 a) 2) (Base64.shr (sextet1 a b) 4) = a.
Proof. unfold sextet0, sextet1. bitwise. Qed.

Lemma decode_byte1 (a b c : byte) :
  Base64.byte_or (Base64.shl (Base64.byte_and (sextet1 a b) x0f) 4)
                 (Base64.shr (sextet2 b c) 2) = b.
Proof. unfold sextet1, sextet2. bitwise. Qed.

Lemma decode_byte2 (b c : byte) :
  Base64.byte_or (Base64.shl (Base64.byte_and (sextet2 b c) x03) 6) (sextet3 c) = c.
Proof. unfold sextet2, sextet3. bitwise. Qed.

(** One step of the decoder on a character of the alphabet. *)
Lemma a2b_loop_data (s : byte) (rest : bytes) (quad_pos : nat) (leftchar : byte)
      (pads : nat) (out : bytes) :
  is_sextet s = true ->
  Base64.a2b_loop (Base64.table_b2a s :: rest) quad_pos leftchar pads out =
  match quad_pos with
  | 0%nat => Base64.a2b_loop rest 1 s 0 out
  | 1%nat =>
      Base64.a2b_loop rest 2 (Base64.byte_and s x0f) 0
        (Base64.byte_or (Base64.shl leftchar 2) (Base64.shr s 4) :: out)
  | 2%nat =>
      Base64.a2b_loop rest 3 (Base64.byte_and s x03) 0
        (Base64.byte_or (Base64.shl leftchar 4) (Base64.shr s 2) :: out)
  | _ => Base64.a2b_loop rest 0 x00 0 (Base64.byte_or (Base64.shl leftchar 6) s :: out)
  end.
Proof.
  intros Hs. destruct (table_a2b_b2a s Hs) as [Hpad Htab].
  cbn [Base64.a2b_loop]. rewrite Hpad, Htab. reflexivity.
Qed.

(** Lists taken three items at a time. *)
Lemma list_ind3 {A} (P : list A -> Prop) :
  P [] -> (forall a, P [a]) -> (forall a b, P [a; b]) ->
  (forall a b c l, P l -> P (a :: b :: c :: l)) ->
  forall l, P l.
Proof.
  intros H0 H1 H2 Hstep.
  assert (H : forall n l, (length l <= n)%nat -> P l).
  { induction n as [|n IH]; intros l Hl.
    - destruct l; [apply H0 | simpl in Hl; lia].
    - destruct l as [|a [|b [|c l]]]; auto.
      apply Hstep, IH. simpl in Hl. lia. }
  intros l. apply (H (length l)). lia.
Qed.

Lemma a2b_loop_b64encode (data out : bytes) :
  Base64.a2b_loop (Base64.b64encode data) 0 x00 0 out = Ok (rev out ++ data).
Proof.
  revert out. induction data as [| a | a b | a b c data IH] using list_ind3; intros out.
  - cbn. now rewrite app_nil_r.
  - cbn [Base64.b64encode]. unfold Base64.enc0, Base64.enc1.
    fold (sextet0 a). fold (sextet1 a x00).
    rewrite a2b_loop_data by apply sextet0_ok.
    rewrite a2b_loop_data by apply sextet1_ok.
    rewrite decode_byte0. cbn. reflexivity.
  - cbn [Base64.b64encode]. unfold Base64.enc0, Base64.enc1, Base64.enc2.
    fold (sextet0 a). fold (sextet1 a b). fold (sextet2 b x00).
    rewrite a2b_loop_data by apply sextet0_ok.
    rewrite a2b_loop_data by apply sextet1_ok.
    rewrite a2b_loop_data by apply sextet2_ok.
    rewrite decode_byte0, decode_byte1. cbn. now rewrite <- app_assoc.
  - cbn [Base64.b64encode]. unfold Base64.enc0, Base64.enc1, Base64.enc2, Base64.enc3.
    fold (sextet0 a). fold (sextet1 a b). fold (sextet2 b c). fold (sextet3 c).
    rewrite a2b_loop_data by apply sextet0_ok.
    rewrite a2b_loop_data by apply sextet1_ok.
    rewrite a2b_loop_data by apply sextet2_ok.
    rewrite a2b_loop_data by apply sextet3_ok.
    rewrite decode_byte0, decode_byte1, decode_byte2, IH.
    cbn [rev]. now rewrite <- !app_assoc.
Qed.

Lemma Base64_decode_encode : codec_inverse Base64.b64encode Base64.b64decode.
Proof. intros data. unfold Base64.b64decode. apply a2b_loop_b64encode. Qed.

Lemma Base64_encode_length (data : bytes) :
  length (Base64.b64encode data) = (4 * ((length data + 2) / 3))%nat.
Proof.
  induction data as [| a | a b | a b c data IH] using list_ind3; try reflexivity.
  cbn [Base64.b64encode length]. rewrite IH.
  replace (S (S (S (length data))) + 2)%nat with (1 * 3 + (length data + 2))%nat by lia.
  rewrite Nat.div_add_l by lia. lia.
Qed.

Lemma Base64_codec_length : codec_length Base64.b64encode.
Proof. intros x y H. now rewrite !Base64_encode_length, H. Qed.

(** ** encrypt and decrypt, over any block cipher and codec that keep their
    contracts *)

Section Claims.

Variables block_encrypt block_decrypt : bytes -> bytes -> bytes.
Variable b64encode : bytes -> bytes.
Variable b64decode : bytes -> result bytes.

Hypothesis encrypt_block_length : block_length_ok block_encrypt.
Hypothesis decrypt_block_length : block_length_ok block_decrypt.
Hypothesis decrypt_encrypt_block : block_inverse block_encrypt block_decrypt.
Hypothesis b64decode_b64encode : codec_inverse b64encode b64decode.
Hypothesis b64encode_length : codec_length b64encode.

(** [decrypt] on the encoding of an untouched ciphertext and its IV. *)
Lemma decrypt_untouched (key iv raw padded : bytes) (self : AESCipher) (n : nat) :
  __init__ key = Ok self -> length iv = 16%nat ->
  length padded = (16 * n)%nat -> _unpad padded = Ok raw ->
  decrypt block_decrypt b64decode self
    (b64encode (cbc_encrypt_blocks block_encrypt n key iv padded ++ iv)) = Ok raw.
Proof.
  intros Hinit Hiv Hlen Hunpad.
  destruct (init_inv _ _ Hinit) as [_ Hk].
  rewrite (decrypt_sealed block_decrypt b64encode b64decode key iv _ self n); auto.
  - now rewrite cbc_decrypt_encrypt.
  - now apply cbc_encrypt_length.
Qed.

(** C2: for every plaintext (the empty one and any number of blocks
    included), every 32-byte key and every IV, decrypting what [encrypt]
    returned gives the plaintext back. *)
Theorem decrypt_encrypt (key iv raw : bytes) (self : AESCipher) :
  __init__ key = Ok self -> length iv = 16%nat ->
  exists blob : bytes,
    encrypt block_encrypt b64encode self iv raw = Ok blob /\
    decrypt block_decrypt b64decode self blob = Ok raw.
Proof.
  intros Hinit Hiv.
  destruct (encrypt_spec block_encrypt b64encode key iv raw self Hinit Hiv)
    as (padded & n & Hpad & Hlen & Hn & _ & Hup & Henc).
  rewrite Hpad in Hup. cbn [bind] in Hup.
  eexists. split; [exact Henc|].
  now apply decrypt_untouched.
Qed.

(** C3, as the code has it: [encrypt] returns the base64 encoding of
    [cipher_text ++ iv], the CBC ciphertext of the padded plaintext first and
    the IV last, with nothing after it (there is no tag); [decrypt] splits its
    decoded input in that order, the last 16 bytes being the IV and what
    precedes them the ciphertext. *)
Theorem encrypt_layout (key iv raw : bytes) (self : AESCipher) :
  __init__ key = Ok self -> length iv = 16%nat ->
  exists padded cipher_text : bytes,
    _pad raw = Ok padded /\
    encryptor_run block_encrypt {| cipher_key := key; cipher_iv := iv |} padded
    = Ok cipher_text /\
    Py.len cipher_text = Py.len padded /\
    encrypt block_encrypt b64encode self iv raw = Ok (b64encode (cipher_text ++ iv)) /\
    Py.slice_to (cipher_text ++ iv) (- block_size) = cipher_text /\
    Py.slice_from (cipher_text ++ iv) (- block_size) = iv /\
    forall encoded : bytes,
      b64decode encoded = Ok (cipher_text ++ iv) ->
      decrypt block_decrypt b64decode self encoded =
      (out <- decryptor_run block_decrypt {| cipher_key := key; cipher_iv := iv |} cipher_text ;;
       _unpad out).
Proof.
  intros Hinit Hiv.
  destruct (encrypt_spec block_encrypt b64encode key iv raw self Hinit Hiv)
    as (padded & n & Hpad & Hlen & Hn & Hq & _ & Henc).
  destruct (init_inv _ _ Hinit) as [_ Hk].
  assert (Hl : Py.len iv = 16) by (unfold Py.len; lia).
  pose proof (cbc_encrypt_length block_encrypt n key iv padded
                encrypt_block_length Hk Hiv Hlen) as Hct.
  exists padded, (cbc_encrypt_blocks block_encrypt n key iv padded).
  assert (Hrun : encryptor_run block_encrypt {| cipher_key := key; cipher_iv := iv |} padded
                 = Ok (cbc_encrypt_blocks block_encrypt n key iv padded)).
  { unfold encryptor_run. cbn [cipher_key cipher_iv]. rewrite block_size_16.
    replace (Py.len padded) with (Z.of_nat n * 16) by (unfold Py.len; lia).
    rewrite Z.mod_mul, Z.div_mul, Nat2Z.id by lia. reflexivity. }
  rewrite block_size_16, <- Hl.
  destruct (slice_split (cbc_encrypt_blocks block_encrypt n key iv padded) iv ltac:(lia))
    as [Hto Hfrom].
  repeat split; auto.
  - unfold Py.len. lia.
  - intros encoded Hdec. unfold decrypt. rewrite Hdec. cbn [bind].
    rewrite block_size_16, <- Hl, Hto, Hfrom, (cipher_ok _ _ _ Hinit Hiv). reflexivity.
Qed.

(** C1, as the code has it: [decrypt] verifies nothing, the blob carrying no
    tag.  The sealed bytes are the ciphertext that the encryptor returned
    followed by the IV and nothing else.  After any single bit of the
    ciphertext region is flipped, the blob differs from the sealed one, only
    its ciphertext part has changed, and [decrypt] does not fail: it returns
    the unpadded CBC decryption of the tampered ciphertext under the
    untouched IV. *)
Theorem tampered_blob_accepted (key iv raw blob sealed : bytes) (self : AESCipher) (i : nat) :
  __init__ key = Ok self -> length iv = 16%nat ->
  encrypt block_encrypt b64encode self iv raw = Ok blob ->
  b64decode blob = Ok sealed ->
  (i < 8 * (length sealed - 16))%nat ->
  exists padded cipher_text tampered_padded out : bytes,
    _pad raw = Ok padded /\
    encryptor_run block_encrypt {| cipher_key := key; cipher_iv := iv |} padded
    = Ok cipher_text /\
    sealed = cipher_text ++ iv /\
    flip_bit sealed i = flip_bit cipher_text i ++ iv /\
    flip_bit sealed i <> sealed /\
    decryptor_run block_decrypt {| cipher_key := key; cipher_iv := iv |}
      (flip_bit cipher_text i) = Ok tampered_padded /\
    _unpad tampered_padded = Ok out /\
    decrypt block_decrypt b64decode self (b64encode (flip_bit sealed i)) = Ok out.
Proof.
  intros Hinit Hiv Henc Hdec Hi.
  destruct (encrypt_spec block_encrypt b64encode key iv raw self Hinit Hiv)
    as (padded & n & Hpad & Hlen & Hn & _ & _ & Henc').
  destruct (init_inv _ _ Hinit) as [_ Hk].
  rewrite Henc' in Henc. injection Henc as <-.
  rewrite b64decode_b64encode in Hdec. injection Hdec as <-.
  pose proof (cbc_encrypt_length block_encrypt n key iv padded
                encrypt_block_length Hk Hiv Hlen) as Hct.
  rewrite length_app in Hi.
  set (ct := cbc_encrypt_blocks block_encrypt n key iv padded) in *.
  assert (Hflip : length (flip_bit ct i) = (16 * n)%nat) by now rewrite flip_bit_length.
  assert (Hout : length (cbc_decrypt_blocks block_decrypt n key iv (flip_bit ct i))
                 = (16 * n)%nat) by (apply cbc_decrypt_length; auto).
  destruct (unpad_nonempty (cbc_decrypt_blocks block_decrypt n key iv (flip_bit ct i)))
    as (out & Hunpad).
  { intros Hnil. rewrite Hnil in Hout. cbn [length] in Hout. lia. }
  exists padded, ct, (cbc_decrypt_blocks block_decrypt n key iv (flip_bit ct i)), out.
  split; [exact Hpad|]. split.
  { unfold encryptor_run. cbn [cipher_key cipher_iv]. rewrite block_size_16.
    replace (Py.len padded) with (Z.of_nat n * 16) by (unfold Py.len; lia).
    rewrite Z.mod_mul, Z.div_mul, Nat2Z.id by lia. reflexivity. }
  split; [reflexivity|].
  split; [apply flip_bit_app; lia|].
  split; [apply flip_bit_changes; rewrite length_app; lia|].
  split.
  { unfold decryptor_run. cbn [cipher_key cipher_iv]. rewrite block_size_16.
    replace (Py.len (flip_bit ct i)) with (Z.of_nat n * 16) by (unfold Py.len; lia).
    rewrite Z.mod_mul, Z.div_mul, Nat2Z.id by lia. reflexivity. }
  split; [exact Hunpad|].
  rewrite flip_bit_app by lia.
  rewrite (decrypt_sealed block_decrypt b64encode b64decode key iv _ self n); auto.
Qed.

(** C7, as the code has it: [decrypt] checks no minimum length, yet every
    input whose decoded length is below [block_size + block_size] (IV and one
    block; there is no tag) fails, whatever the block cipher, so that no block
    is decrypted: with the [ValueError] of the IV size below 16 bytes, an
    [IndexError] at exactly 16 bytes, and the [ValueError] of the block
    multiple from 17 to 31 bytes.  A failure of the base64 decoding is passed
    on as it is, an error of its own. *)
Theorem decrypt_short_input (key encoded : bytes) (self : AESCipher) :
  __init__ key = Ok self ->
  (forall e : exn,
     b64decode encoded = Raise e ->
     decrypt block_decrypt b64decode self encoded = Raise e) /\
  (forall raw : bytes,
     b64decode encoded = Ok raw ->
     (Py.len raw < 16 ->
      decrypt block_decrypt b64decode self encoded =
      Raise (ValueError ("Invalid IV size (" ++ repr_int (Py.len raw) ++ ") for CBC."))) /\
     (Py.len raw = 16 ->
      decrypt block_decrypt b64decode self encoded =
      Raise (IndexError "index out of range")) /\
     (16 < Py.len raw < 32 ->
      decrypt block_decrypt b64decode self encoded = Raise not_block_multiple) /\
     (Py.len raw < block_size + block_size ->
      exists e : exn,
        forall other_decrypt : bytes -> bytes -> bytes,
          decrypt other_decrypt b64decode self encoded = Raise e)).
Proof.
  intros Hinit. split.
  - intros e He. unfold decrypt. rewrite He. reflexivity.
  - intros raw Hraw.
    assert (Hshort : Py.len raw < 16 -> forall D,
              decrypt D b64decode self encoded =
              Raise (ValueError ("Invalid IV size (" ++ repr_int (Py.len raw) ++ ") for CBC."))).
    { intros Hlt D. unfold decrypt. rewrite Hraw. cbn [bind]. rewrite block_size_16.
      pose proof (len_nonneg raw).
      rewrite (slice_from_neg_big raw 16) by lia.
      rewrite (cipher_bad_iv _ _ _ Hinit) by lia. reflexivity. }
    assert (Hexact : Py.len raw = 16 -> forall D,
              decrypt D b64decode self encoded = Raise (IndexError "index out of range")).
    { intros Heq D. unfold decrypt. rewrite Hraw. cbn [bind]. rewrite block_size_16.
      rewrite (slice_from_neg_big raw 16), (slice_to_neg_big raw 16) by lia.
      rewrite (cipher_ok _ _ _ Hinit) by (unfold Py.len in Heq; lia). reflexivity. }
    assert (Hpart : 16 < Py.len raw < 32 -> forall D,
              decrypt D b64decode self encoded = Raise not_block_multiple).
    { intros Hr D. unfold decrypt. rewrite Hraw. cbn [bind]. rewrite block_size_16.
      rewrite (slice_from_neg raw 16), (slice_to_neg raw 16) by lia.
      rewrite (cipher_ok _ _ _ Hinit) by (rewrite length_skipn; unfold Py.len in *; lia).
      cbn [bind]. unfold decryptor_run. rewrite block_size_16.
      assert (Hl : Py.len (firstn (Z.to_nat (Py.len raw - 16)) raw) = Py.len raw - 16)
        by (unfold Py.len in *; rewrite length_firstn; lia).
      rewrite Hl.
      rewrite (Z.mod_small (Py.len raw - 16) 16) by lia.
      destruct (Z.eqb_spec (Py.len raw - 16) 0); [lia | reflexivity]. }
    split; [intros H; exact (Hshort H block_decrypt)|].
    split; [intros H; exact (Hexact H block_decrypt)|].
    split; [intros H; exact (Hpart H block_decrypt)|].
    rewrite block_size_16. intros Hlt.
    destruct (Z.lt_trichotomy (Py.len raw) 16) as [H|[H|H]]; eexists; intros D.
    + now apply Hshort.
    + now apply Hexact.
    + apply Hpart. lia.
Qed.

(** C8, as the code has it: the length of the blob depends on the length of
    the plaintext only (not on its content, the key or the IV).  The sealed
    bytes are the ciphertext followed by the IV, with no tag: [block_size]
    bytes of IV and one block more than the whole blocks of the plaintext,
    so that for "hello" (under the zero key as under any other) the sealed
    blob has 16 + 16 bytes, and [decrypt] of that very blob returns
    "hello". *)
Theorem sealed_length (key iv raw : bytes) (self : AESCipher) :
  __init__ key = Ok self -> length iv = 16%nat ->
  exists blob sealed padded cipher_text : bytes,
    encrypt block_encrypt b64encode self iv raw = Ok blob /\
    b64decode blob = Ok sealed /\
    _pad raw = Ok padded /\
    encryptor_run block_encrypt {| cipher_key := key; cipher_iv := iv |} padded
    = Ok cipher_text /\
    sealed = cipher_text ++ iv /\
    Py.len cipher_text = (Py.len raw / block_size + 1) * block_size /\
    Py.len sealed = block_size + (Py.len raw / block_size + 1) * block_size /\
    (forall (key' iv' raw' : bytes) (self' : AESCipher),
       __init__ key' = Ok self' -> length iv' = 16%nat -> Py.len raw' = Py.len raw ->
       exists blob' : bytes,
         encrypt block_encrypt b64encode self' iv' raw' = Ok blob' /\
         length blob' = length blob) /\
    (raw = hello ->
     Py.len cipher_text = 16 /\ Py.len sealed = 16 + 16 /\
     decrypt block_decrypt b64decode self blob = Ok hello).
Proof.
  intros Hinit Hiv.
  destruct (encrypt_spec block_encrypt b64encode key iv raw self Hinit Hiv)
    as (padded & n & Hpad & Hlen & Hn & Hq & Hup & Henc).
  destruct (init_inv _ _ Hinit) as [_ Hk].
  pose proof (cbc_encrypt_length block_encrypt n key iv padded
                encrypt_block_length Hk Hiv Hlen) as Hct.
  set (ct := cbc_encrypt_blocks block_encrypt n key iv padded) in *.
  assert (Hctlen : Py.len ct = (Py.len raw / block_size + 1) * block_size)
    by (unfold Py.len at 1; rewrite Hct, <- Hq, block_size_16; lia).
  assert (Hsealed : Py.len (ct ++ iv) = block_size + (Py.len raw / block_size + 1) * block_size).
  { assert (Hl : Py.len iv = 16) by (unfold Py.len; lia).
    rewrite len_app, Hctlen, Hl, block_size_16. lia. }
  exists (b64encode (ct ++ iv)), (ct ++ iv), padded, ct.
  split; [exact Henc|]. split; [apply b64decode_b64encode|].
  split; [exact Hpad|]. split.
  { unfold encryptor_run. cbn [cipher_key cipher_iv]. rewrite block_size_16.
    replace (Py.len padded) with (Z.of_nat n * 16) by (unfold Py.len; lia).
    rewrite Z.mod_mul, Z.div_mul, Nat2Z.id by lia. reflexivity. }
  split; [reflexivity|]. split; [exact Hctlen|]. split; [exact Hsealed|]. split.
  - intros key' iv' raw' self' Hinit' Hiv' Hraw'.
    destruct (encrypt_spec block_encrypt b64encode key' iv' raw' self' Hinit' Hiv')
      as (padded' & n' & Hpad' & Hlen' & Hn' & Hq' & _ & Henc').
    destruct (init_inv _ _ Hinit') as [_ Hk'].
    eexists. split; [exact Henc'|]. apply b64encode_length.
    rewrite !length_app, Hiv, Hiv', Hct.
    rewrite (cbc_encrypt_length block_encrypt n' key' iv' padded') by auto.
    rewrite Hraw' in Hq'. lia.
  - intros ->. split; [rewrite Hctlen; reflexivity|].
    split; [rewrite Hsealed; reflexivity|].
    rewrite Hpad in Hup. cbn [bind] in Hup. now apply decrypt_untouched.
Qed.

End Claims.

(** ** The script's cipher: AES-256 and base64 *)

(** C2 at the zero key, [iv0] and "hello". *)
Lemma decrypt_encrypt_witness :
  __init__ zero_key = Ok zero_cipher /\ length iv0 = 16%nat /\
  exists blob : bytes,
    aes_encrypt zero_cipher iv0 hello = Ok blob /\ aes_decrypt zero_cipher blob = Ok hello.
Proof.
  split; [reflexivity|]. split; [reflexivity|].
  exact (decrypt_encrypt AES.encrypt_block AES.decrypt_block Base64.b64encode Base64.b64decode
           AES_encrypt_block_length AES_decrypt_encrypt_block Base64_decode_encode
           zero_key iv0 hello zero_cipher eq_refl eq_refl).
Defined.

(** C3 at the zero key, [iv0] and "hello". *)
Lemma encrypt_layout_witness :
  __init__ zero_key = Ok zero_cipher /\ length iv0 = 16%nat /\
  exists padded cipher_text : bytes,
    _pad hello = Ok padded /\
    encryptor_run AES.encrypt_block {| cipher_key := zero_key; cipher_iv := iv0 |} padded
    = Ok cipher_text /\
    Py.len cipher_text = Py.len padded /\
    aes_encrypt zero_cipher iv0 hello = Ok (Base64.b64encode (cipher_text ++ iv0)) /\
    Py.slice_to (cipher_text ++ iv0) (- block_size) = cipher_text /\
    Py.slice_from (cipher_text ++ iv0) (- block_size) = iv0 /\
    forall encoded : bytes,
      Base64.b64decode encoded = Ok (cipher_text ++ iv0) ->
      aes_decrypt zero_cipher encoded =
      (out <- decryptor_run AES.decrypt_block
                {| cipher_key := zero_key; cipher_iv := iv0 |} cipher_text ;;
       _unpad out).
Proof.
  split; [reflexivity|]. split; [reflexivity|].
  exact (encrypt_layout AES.encrypt_block AES.decrypt_block Base64.b64encode Base64.b64decode
           AES_encrypt_block_length zero_key iv0 hello zero_cipher eq_refl eq_refl).
Defined.

(** C3 as stated fails: the sealed bytes of "hello" are the ciphertext block
    followed by the IV, 32 bytes with no tag; the first 16 are not the IV. *)
Lemma sealed_blob_ends_with_iv :
  (blob <- aes_encrypt zero_cipher iv0 hello ;; Base64.b64decode blob)
  = Ok (hello_cipher_text ++ iv0) /\
  firstn 16 (hello_cipher_text ++ iv0) = hello_cipher_text /\
  skipn 16 (hello_cipher_text ++ iv0) = iv0 /\
  length (hello_cipher_text ++ iv0) = 32%nat /\
  (if list_eq_dec Byte.byte_eq_dec (firstn 16 (hello_cipher_text ++ iv0)) iv0
   then true else false) = false.
Proof. repeat split; vm_compute; reflexivity. Qed.

(** C1 at the zero key, [iv0], a plaintext of two blocks and bit 0. *)
Lemma tampered_blob_accepted_witness :
  __init__ zero_key = Ok zero_cipher /\ length iv0 = 16%nat /\
  aes_encrypt zero_cipher iv0 two_blocks = Ok two_blocks_blob /\
  Base64.b64decode two_blocks_blob = Ok (two_blocks_cipher_text ++ iv0) /\
  (0 < 8 * (length (two_blocks_cipher_text ++ iv0) - 16))%nat /\
  exists padded cipher_text tampered_padded out : bytes,
    _pad two_blocks = Ok padded /\
    encryptor_run AES.encrypt_block {| cipher_key := zero_key; cipher_iv := iv0 |} padded
    = Ok cipher_text /\
    two_blocks_cipher_text ++ iv0 = cipher_text ++ iv0 /\
    flip_bit (two_blocks_cipher_text ++ iv0) 0 = flip_bit cipher_text 0 ++ iv0 /\
    flip_bit (two_blocks_cipher_text ++ iv0) 0 <> two_blocks_cipher_text ++ iv0 /\
    decryptor_run AES.decrypt_block {| cipher_key := zero_key; cipher_iv := iv0 |}
      (flip_bit cipher_text 0) = Ok tampered_padded /\
    _unpad tampered_padded = Ok out /\
    aes_decrypt zero_cipher
      (Base64.b64encode (flip_bit (two_blocks_cipher_text ++ iv0) 0)) = Ok out.
Proof.
  assert (Henc : aes_encrypt zero_cipher iv0 two_blocks = Ok two_blocks_blob)
    by (vm_compute; reflexivity).
  assert (Hdec : Base64.b64decode two_blocks_blob = Ok (two_blocks_cipher_text ++ iv0))
    by (vm_compute; reflexivity).
  assert (Hi : (0 < 8 * (length (two_blocks_cipher_text ++ iv0) - 16))%nat)
    by (vm_compute; lia).
  split; [reflexivity|]. split; [reflexivity|]. split; [exact Henc|].
  split; [exact Hdec|]. split; [exact Hi|].
  exact (tampered_blob_accepted AES.encrypt_block AES.decrypt_block
           Base64.b64encode Base64.b64decode
           AES_encrypt_block_length AES_decrypt_block_length Base64_decode_encode
           zero_key iv0 two_blocks two_blocks_blob (two_blocks_cipher_text ++ iv0)
           zero_cipher 0%nat eq_refl eq_refl Henc Hdec Hi).
Defined.

(** C1 as stated fails: with bit 0 of the first ciphertext block flipped,
    [decrypt] raises nothing and returns a plaintext, the second block of
    which reads "iello" for "hello". *)
Lemma tampered_blob_returns_plaintext :
  aes_encrypt zero_cipher iv0 two_blocks = Ok two_blocks_blob /\
  Base64.b64decode two_blocks_blob = Ok (two_blocks_cipher_text ++ iv0) /\
  aes_decrypt zero_cipher two_blocks_blob = Ok two_blocks /\
  aes_decrypt zero_cipher (Base64.b64encode (flip_bit (two_blocks_cipher_text ++ iv0) 0))
  = Ok two_blocks_tampered.
Proof. repeat split; vm_compute; reflexivity. Qed.

(** C7 at the zero key and the encoding of 16 zero bytes. *)
Lemma decrypt_short_input_witness :
  __init__ zero_key = Ok zero_cipher /\
  (forall e : exn,
     Base64.b64decode (Base64.b64encode (repeat x00 16)) = Raise e ->
     aes_decrypt zero_cipher (Base64.b64encode (repeat x00 16)) = Raise e) /\
  (forall raw : bytes,
     Base64.b64decode (Base64.b64encode (repeat x00 16)) = Ok raw ->
     (Py.len raw < 16 ->
      aes_decrypt zero_cipher (Base64.b64encode (repeat x00 16)) =
      Raise (ValueError ("Invalid IV size (" ++ repr_int (Py.len raw) ++ ") for CBC."))) /\
     (Py.len raw = 16 ->
      aes_decrypt zero_cipher (Base64.b64encode (repeat x00 16)) =
      Raise (IndexError "index out of range")) /\
     (16 < Py.len raw < 32 ->
      aes_decrypt zero_cipher (Base64.b64encode (repeat x00 16)) = Raise not_block_multiple) /\
     (Py.len raw < block_size + block_size ->
      exists e : exn,
        forall other_decrypt : bytes -> bytes -> bytes,
          decrypt other_decrypt Base64.b64decode zero_cipher
            (Base64.b64encode (repeat x00 16)) = Raise e)).
Proof.
  split; [reflexivity|].
  exact (decrypt_short_input AES.decrypt_block Base64.b64decode zero_key
           (Base64.b64encode (repeat x00 16)) zero_cipher eq_refl).
Defined.

(** C7 as stated fails: short inputs and undecodable ones do not share one
    error.  16 decoded bytes raise [IndexError], 1 byte and 17 bytes two
    different [ValueError]s, and text that is not base64 the decoder's own
    error. *)
Lemma decrypt_errors_differ :
  aes_decrypt zero_cipher (Base64.b64encode (repeat x00 16))
  = Raise (IndexError "index out of range") /\
  aes_decrypt zero_cipher (Base64.b64encode [x00])
  = Raise (ValueError "Invalid IV size (1) for CBC.") /\
  aes_decrypt zero_cipher (Base64.b64encode (repeat x00 17))
  = Raise (ValueError "The length of the provided data is not a multiple of the block length.") /\
  aes_decrypt zero_cipher (list_byte_of_string "AA")
  = Raise (BinasciiError "Incorrect padding").
Proof. repeat split; vm_compute; reflexivity. Qed.

(** C8 at the zero key, [iv0] and "hello". *)
Lemma sealed_length_witness :
  __init__ zero_key = Ok zero_cipher /\ length iv0 = 16%nat /\
  exists blob sealed padded cipher_text : bytes,
    aes_encrypt zero_cipher iv0 hello = Ok blob /\
    Base64.b64decode blob = Ok sealed /\
    _pad hello = Ok padded /\
    encryptor_run AES.encrypt_block {| cipher_key := zero_key; cipher_iv := iv0 |} padded
    = Ok cipher_text /\
    sealed = cipher_text ++ iv0 /\
    Py.len cipher_text = (Py.len hello / block_size + 1) * block_size /\
    Py.len sealed = block_size + (Py.len hello / block_size + 1) * block_size /\
    (forall (key' iv' raw' : bytes) (self' : AESCipher),
       __init__ key' = Ok self' -> length iv' = 16%nat -> Py.len raw' = Py.len hello ->
       exists blob' : bytes,
         aes_encrypt self' iv' raw' = Ok blob' /\ length blob' = length blob) /\
    (hello = hello ->
     Py.len cipher_text = 16 /\ Py.len sealed = 16 + 16 /\
     aes_decrypt zero_cipher blob = Ok hello).
Proof.
  split; [reflexivity|]. split; [reflexivity|].
  exact (sealed_length AES.encrypt_block AES.decrypt_block Base64.b64encode Base64.b64decode
           AES_encrypt_block_length AES_decrypt_encrypt_block Base64_decode_encode
           Base64_codec_length zero_key iv0 hello zero_cipher eq_refl eq_refl).
Defined.

(** C8 as stated fails: under the zero key the sealed bytes of "hello" are 32
    in all, one padded block of ciphertext and the 16 bytes of the IV, which
    are its last 16 bytes; no byte is left for a tag, so the length is
    16 + 16 and not 16 + 16 + the length of a tag. *)
Lemma sealed_hello_has_no_tag :
  (blob <- aes_encrypt zero_cipher iv0 hello ;; Base64.b64decode blob)
  = Ok (hello_cipher_text ++ iv0) /\
  (padded <- _pad hello ;;
   encryptor_run AES.encrypt_block {| cipher_key := zero_key; cipher_iv := iv0 |} padded)
  = Ok hello_cipher_text /\
  Py.len hello_cipher_text = 16 /\
  Py.slice_from (hello_cipher_text ++ iv0) (- block_size) = iv0 /\
  skipn (16 + 16) (hello_cipher_text ++ iv0) = [] /\
  Py.len (hello_cipher_text ++ iv0) = 16 + 16.
Proof. repeat split; vm_compute; reflexivity. Qed.

(** ** Known answers of the two library models *)

(** FIPS 197, appendix C.3: AES-256 on the example block. *)
Example aes256_known_answer :
  AES.encrypt_block
    [x00; x01; x02; x03; x04; x05; x06; x07; x08; x09; x0a; x0b; x0c; x0d; x0e; x0f;
     x10; x11; x12; x13; x14; x15; x16; x17; x18; x19; x1a; x1b; x1c; x1d; x1e; x1f]
    [x00; x11; x22; x33; x44; x55; x66; x77; x88; x99; xaa; xbb; xcc; xdd; xee; xff]
  = [x8e; xa2; xb7; xca; x51; x67; x45; xbf; xea; xfc; x49; x90; x4b; x49; x60; x89].
Proof. vm_compute. reflexivity. Qed.

(** AES-256 of the zero block under the zero key. *)
Example aes256_zero_known_answer :
  AES.encrypt_block zero_key (repeat x00 16)
  = [xdc; x95; xc0; x78; xa2; x40; x89; x89; xad; x48; xa2; x14; x92; x84; x20; x87].
Proof. vm_compute. reflexivity. Qed.

(** RFC 4648, section 10. *)
Example base64_known_answers :
  map (fun s => string_of_list_byte (Base64.b64encode (list_byte_of_string s)))
      ["f"; "fo"; "foo"; "foob"; "fooba"; "foobar"]%string
  = ["Zg=="; "Zm8="; "Zm9v"; "Zm9vYg=="; "Zm9vYmE="; "Zm9vYmFy"]%string.
Proof. vm_compute. reflexivity. Qed.

(** ** More on tampering and on lists *)

Lemma byte_xor_assoc (a b c : byte) : byte_xor a (byte_xor b c) = byte_xor (byte_xor a b) c.
Proof. bitwise. Qed.

Lemma flip_bit_cons_head (x : byte) (l : bytes) (i : nat) :
  (i < 8)%nat -> flip_bit (x :: l) i = byte_xor x (bit_mask i) :: l.
Proof.
  intros Hi. unfold flip_bit.
  rewrite (Nat.div_small i 8), (Nat.mod_small i 8) by lia. reflexivity.
Qed.

Lemma flip_bit_cons_tail (x : byte) (l : bytes) (i : nat) :
  flip_bit (x :: l) (8 + i) = x :: flip_bit l i.
Proof.
  unfold flip_bit.
  replace ((8 + i) / 8)%nat with (S (i / 8))
    by (replace (8 + i)%nat with (1 * 8 + i)%nat by lia; rewrite Nat.div_add_l; lia).
  replace ((8 + i) mod 8)%nat with (i mod 8)%nat
    by (replace (8 + i)%nat with (i + 1 * 8)%nat by lia; now rewrite Nat.Div0.mod_add).
  reflexivity.
Qed.

Lemma flip_bit_nil (i : nat) : flip_bit [] i = [].
Proof. unfold flip_bit. now rewrite firstn_nil, skipn_nil. Qed.

(** A bit of the second part of a concatenation. *)
Lemma flip_bit_app_r (l1 l2 : bytes) (i : nat) :
  flip_bit (l1 ++ l2) (8 * length l1 + i) = l1 ++ flip_bit l2 i.
Proof.
  induction l1 as [|x l1 IH]; [reflexivity|].
  cbn [length app]. replace (8 * S (length l1) + i)%nat with (8 + (8 * length l1 + i))%nat by lia.
  now rewrite flip_bit_cons_tail, IH.
Qed.

(** Flipping a bit of one operand of an exclusive or flips that bit of the
    result. *)
Lemma xor_bytes_flip_bit (a b : bytes) (i : nat) :
  length a = length b ->
  xor_bytes a (flip_bit b i) = flip_bit (xor_bytes a b) i.
Proof.
  revert b i. induction a as [|x a IH]; intros [|y b] i Hlen; try discriminate Hlen.
  - cbn [xor_bytes]. now rewrite !flip_bit_nil.
  - destruct (Nat.lt_ge_cases i 8) as [Hi|Hi].
    + rewrite flip_bit_cons_head by assumption. cbn [xor_bytes].
      rewrite flip_bit_cons_head by assumption. now rewrite byte_xor_assoc.
    + replace i with (8 + (i - 8))%nat by lia.
      rewrite flip_bit_cons_tail. cbn [xor_bytes]. rewrite flip_bit_cons_tail.
      rewrite IH by (injection Hlen; auto). reflexivity.
Qed.

(** Two concatenations with parts of equal length are equal part by part. *)
Lemma app_eq_parts {A} (l1 l2 t1 t2 : list A) :
  l1 ++ t1 = l2 ++ t2 -> length t1 = length t2 -> l1 = l2 /\ t1 = t2.
Proof.
  intros H Ht.
  assert (Hl : length l1 = length l2).
  { apply (f_equal (@length A)) in H. rewrite !length_app in H. lia. }
  split.
  - apply (f_equal (firstn (length l1))) in H.
    rewrite firstn_app_len in H by reflexivity.
    rewrite Hl, firstn_app_len in H by reflexivity. exact H.
  - apply (f_equal (skipn (length l1))) in H.
    rewrite skipn_app_len in H by reflexivity.
    rewrite Hl, skipn_app_len in H by reflexivity. exact H.
Qed.

(** [_unpad] returns less than it was given. *)
Lemma unpad_shorter (padded : bytes) :
  padded <> [] ->
  exists out : bytes, _unpad padded = Ok out /\ Py.len out < Py.len padded.
Proof.
  intros H. destruct (nonempty_snoc _ H) as (body & x & ->).
  rewrite unpad_snoc. eexists. split; [reflexivity|].
  pose proof (byte_int_range x) as Hx.
  set (l := body ++ [x]).
  assert (Hl : 0 < Py.len l) by (unfold l; rewrite len_app; pose proof (len_nonneg body);
                                  change (Py.len [x]) with 1; lia).
  unfold Py.slice_to, Py.clamp, Py.len in *. rewrite length_firstn.
  destruct (Z.ltb_spec (- Z.of_N (Byte.to_N x)) 0); lia.
Qed.

(** ** What else [encrypt] and [decrypt] do, over any block cipher and codec
    that keep their contracts *)

Section MoreCipherProperties.

Variables block_encrypt block_decrypt : bytes -> bytes -> bytes.
Variable b64encode : bytes -> bytes.
Variable b64decode : bytes -> result bytes.

Hypothesis encrypt_block_length : block_length_ok block_encrypt.
Hypothesis decrypt_block_length : block_length_ok block_decrypt.
Hypothesis decrypt_encrypt_block : block_inverse block_encrypt block_decrypt.
Hypothesis b64decode_b64encode : codec_inverse b64encode b64decode.

(** [decrypt] on decoded bytes that end on a block boundary. *)
Lemma decrypt_aligned (key encoded raw : bytes) (self : AESCipher) (n : nat) :
  __init__ key = Ok self -> b64decode encoded = Ok raw ->
  length raw = (16 * n + 16)%nat ->
  decrypt block_decrypt b64decode self encoded =
  _unpad (cbc_decrypt_blocks block_decrypt n key (skipn (16 * n) raw) (firstn (16 * n) raw)).
Proof.
  intros Hinit Hraw Hlen. unfold decrypt. rewrite Hraw. cbn [bind]. rewrite block_size_16.
  assert (HL : Py.len raw = Z.of_nat n * 16 + 16) by (unfold Py.len; lia).
  rewrite (slice_from_neg raw 16), (slice_to_neg raw 16) by lia.
  replace (Z.to_nat (Py.len raw - 16)) with (16 * n)%nat by lia.
  rewrite (cipher_ok key) by (auto; rewrite length_skipn; lia). cbn [bind].
  unfold decryptor_run. cbn [cipher_key cipher_iv]. rewrite block_size_16.
  replace (Py.len (firstn (16 * n) raw)) with (Z.of_nat n * 16)
    by (unfold Py.len; rewrite length_firstn; lia).
  rewrite Z.mod_mul, Z.div_mul, Nat2Z.id by lia. reflexivity.
Qed.

(** X1: [decrypt] accepts every decoded input of at least 32 bytes that ends
    on a block boundary, whatever its content: it takes the last 16 bytes as
    IV, runs the decryptor over the rest and returns what [_unpad] leaves of
    the result, which is shorter than the ciphertext; no padding, key or
    integrity check can make it fail. *)
Theorem decrypt_accepts_aligned (key encoded raw : bytes) (self : AESCipher) :
  __init__ key = Ok self -> b64decode encoded = Ok raw ->
  32 <= Py.len raw -> Py.len raw mod 16 = 0 ->
  exists padded out : bytes,
    decryptor_run block_decrypt
      {| cipher_key := key; cipher_iv := Py.slice_from raw (- block_size) |}
      (Py.slice_to raw (- block_size)) = Ok padded /\
    Py.len padded = Py.len raw - 16 /\
    _unpad padded = Ok out /\
    Py.len out < Py.len padded /\
    decrypt block_decrypt b64decode self encoded = Ok out.
Proof.
  intros Hinit Hraw Hmin Hmod.
  destruct (init_inv _ _ Hinit) as [_ Hk].
  pose proof (Z.div_mod (Py.len raw) 16 ltac:(lia)) as Hdm.
  set (n := Z.to_nat (Py.len raw / 16 - 1)).
  assert (Hlen : length raw = (16 * n + 16)%nat) by (unfold Py.len in *; lia).
  assert (HL : Py.len raw = Z.of_nat n * 16 + 16) by (unfold Py.len; lia).
  rewrite (decrypt_aligned key encoded raw self n Hinit Hraw Hlen).
  rewrite block_size_16, (slice_from_neg raw 16), (slice_to_neg raw 16) by lia.
  replace (Z.to_nat (Py.len raw - 16)) with (16 * n)%nat by lia.
  set (iv := skipn (16 * n) raw). set (ct := firstn (16 * n) raw).
  assert (Hiv : length iv = 16%nat) by (unfold iv; rewrite length_skipn; lia).
  assert (Hct : length ct = (16 * n)%nat) by (unfold ct; rewrite length_firstn; lia).
  assert (Hout : length (cbc_decrypt_blocks block_decrypt n key iv ct) = (16 * n)%nat)
    by (apply cbc_decrypt_length; auto).
  destruct (unpad_shorter (cbc_decrypt_blocks block_decrypt n key iv ct)) as (out & Hu & Hlt).
  { intros Hnil. rewrite Hnil in Hout. cbn [length] in Hout. unfold Py.len in *. lia. }
  exists (cbc_decrypt_blocks block_decrypt n key iv ct), out.
  split.
  { unfold decryptor_run. cbn [cipher_key cipher_iv]. rewrite block_size_16.
    replace (Py.len ct) with (Z.of_nat n * 16) by (unfold Py.len; lia).
    rewrite Z.mod_mul, Z.div_mul, Nat2Z.id by lia. reflexivity. }
  split; [unfold Py.len; lia|]. split; [exact Hu|]. split; [exact Hlt | exact Hu].
Qed.

(** X2: a blob sealed under one key is decrypted under any other key without
    an error: [decrypt] returns what [_unpad] leaves of the decryptor's
    output under the other key. *)
Theorem decrypt_wrong_key (key key' iv raw blob : bytes) (self self' : AESCipher) :
  __init__ key = Ok self -> __init__ key' = Ok self' -> length iv = 16%nat ->
  encrypt block_encrypt b64encode self iv raw = Ok blob ->
  exists padded cipher_text padded' out : bytes,
    _pad raw = Ok padded /\
    encryptor_run block_encrypt {| cipher_key := key; cipher_iv := iv |} padded
    = Ok cipher_text /\
    blob = b64encode (cipher_text ++ iv) /\
    decryptor_run block_decrypt {| cipher_key := key'; cipher_iv := iv |} cipher_text
    = Ok padded' /\
    _unpad padded' = Ok out /\
    decrypt block_decrypt b64decode self' blob = Ok out.
Proof.
  intros Hinit Hinit' Hiv Henc.
  destruct (encrypt_spec block_encrypt b64encode key iv raw self Hinit Hiv)
    as (padded & n & Hpad & Hlen & Hn & _ & _ & Henc').
  destruct (init_inv _ _ Hinit) as [_ Hk]. destruct (init_inv _ _ Hinit') as [_ Hk'].
  rewrite Henc' in Henc. injection Henc as <-.
  pose proof (cbc_encrypt_length block_encrypt n key iv padded
                encrypt_block_length Hk Hiv Hlen) as Hct.
  set (ct := cbc_encrypt_blocks block_encrypt n key iv padded) in *.
  assert (Hout : length (cbc_decrypt_blocks block_decrypt n key' iv ct) = (16 * n)%nat)
    by (apply cbc_decrypt_length; auto).
  destruct (unpad_nonempty (cbc_decrypt_blocks block_decrypt n key' iv ct)) as (out & Hu).
  { intros Hnil. rewrite Hnil in Hout. cbn [length] in Hout. lia. }
  exists padded, ct, (cbc_decrypt_blocks block_decrypt n key' iv ct), out.
  split; [exact Hpad|]. split.
  { unfold encryptor_run. cbn [cipher_key cipher_iv]. rewrite block_size_16.
    replace (Py.len padded) with (Z.of_nat n * 16) by (unfold Py.len; lia).
    rewrite Z.mod_mul, Z.div_mul, Nat2Z.id by lia. reflexivity. }
  split; [reflexivity|]. split.
  { unfold decryptor_run. cbn [cipher_key cipher_iv]. rewrite block_size_16.
    replace (Py.len ct) with (Z.of_nat n * 16) by (unfold Py.len; lia).
    rewrite Z.mod_mul, Z.div_mul, Nat2Z.id by lia. reflexivity. }
  split; [exact Hu|].
  rewrite (decrypt_sealed block_decrypt b64encode b64decode key' iv _ self' n); auto.
Qed.

(** X3: a decoded input of more than 16 bytes that does not end on a block
    boundary makes [decrypt] fail with the [ValueError] of [finalize()],
    whatever the key and the content. *)
Theorem decrypt_misaligned (key encoded raw : bytes) (self : AESCipher) :
  __init__ key = Ok self -> b64decode encoded = Ok raw ->
  16 < Py.len raw -> Py.len raw mod 16 <> 0 ->
  decrypt block_decrypt b64decode self encoded = Raise not_block_multiple.
Proof.
  intros Hinit Hraw Hmin Hmod. unfold decrypt. rewrite Hraw. cbn [bind].
  rewrite block_size_16.
  rewrite (slice_from_neg raw 16), (slice_to_neg raw 16) by lia.
  rewrite (cipher_ok key) by (auto; rewrite length_skipn; unfold Py.len in *; lia).
  cbn [bind]. unfold decryptor_run. rewrite block_size_16.
  assert (Hl : Py.len (firstn (Z.to_nat (Py.len raw - 16)) raw) = Py.len raw - 16)
    by (unfold Py.len in *; rewrite length_firstn; lia).
  rewrite Hl.
  replace (Py.len raw - 16) with (Py.len raw + (-1) * 16) by lia.
  rewrite Z.mod_add by lia.
  destruct (Z.eqb_spec (Py.len raw mod 16) 0); [contradiction | reflexivity].
Qed.

(** X4: [encrypt] is injective: under one key, two calls that return the
    same blob used the same IV and the same plaintext. *)
Theorem encrypt_injective (key iv1 iv2 raw1 raw2 blob : bytes) (self : AESCipher) :
  __init__ key = Ok self -> length iv1 = 16%nat -> length iv2 = 16%nat ->
  encrypt block_encrypt b64encode self iv1 raw1 = Ok blob ->
  encrypt block_encrypt b64encode self iv2 raw2 = Ok blob ->
  iv1 = iv2 /\ raw1 = raw2.
Proof.
  intros Hinit Hiv1 Hiv2 Henc1 Henc2.
  destruct (encrypt_spec block_encrypt b64encode key iv1 raw1 self Hinit Hiv1)
    as (padded1 & n1 & Hpad1 & Hlen1 & _ & _ & Hup1 & Hspec1).
  destruct (encrypt_spec block_encrypt b64encode key iv2 raw2 self Hinit Hiv2)
    as (padded2 & n2 & Hpad2 & Hlen2 & _ & _ & Hup2 & Hspec2).
  destruct (init_inv _ _ Hinit) as [_ Hk].
  rewrite Hspec1 in Henc1. rewrite Hspec2 in Henc2.
  injection Henc1 as Hb1. injection Henc2 as Hb2.
  assert (Hsealed : cbc_encrypt_blocks block_encrypt n1 key iv1 padded1 ++ iv1 =
                    cbc_encrypt_blocks block_encrypt n2 key iv2 padded2 ++ iv2).
  { pose proof (b64decode_b64encode
                  (cbc_encrypt_blocks block_encrypt n1 key iv1 padded1 ++ iv1)) as H1.
    pose proof (b64decode_b64encode
                  (cbc_encrypt_blocks block_encrypt n2 key iv2 padded2 ++ iv2)) as H2.
    rewrite Hb1 in H1. rewrite Hb2 in H2. rewrite H1 in H2. now injection H2. }
  destruct (app_eq_parts _ _ _ _ Hsealed ltac:(lia)) as [Hct Hiv].
  split; [exact Hiv|].
  rewrite Hpad1 in Hup1. rewrite Hpad2 in Hup2. cbn [bind] in Hup1, Hup2.
  pose proof (cbc_encrypt_length block_encrypt n1 key iv1 padded1
                encrypt_block_length Hk Hiv1 Hlen1) as L1.
  pose proof (cbc_encrypt_length block_encrypt n2 key iv2 padded2
                encrypt_block_length Hk Hiv2 Hlen2) as L2.
  assert (Hn : n1 = n2) by (rewrite Hct in L1; lia). subst n2 iv2.
  assert (Hp : padded1 = padded2).
  { rewrite <- (cbc_decrypt_encrypt block_encrypt block_decrypt n1 key iv1 padded1) by auto.
    rewrite <- (cbc_decrypt_encrypt block_encrypt block_decrypt n1 key iv1 padded2) by auto.
    now rewrite Hct. }
  subst padded2. rewrite Hup1 in Hup2. now injection Hup2.
Qed.

(** X5: the IV is not protected either: for a plaintext of at least 16
    bytes, flipping bit [i] of the IV region of the sealed bytes makes
    [decrypt] return the plaintext with bit [i] flipped, and nothing else
    changed. *)
Theorem flipped_iv_flips_plaintext
        (key iv raw blob sealed : bytes) (self : AESCipher) (i : nat) :
  __init__ key = Ok self -> length iv = 16%nat -> 16 <= Py.len raw ->
  encrypt block_encrypt b64encode self iv raw = Ok blob ->
  b64decode blob = Ok sealed ->
  (i < 128)%nat ->
  decrypt block_decrypt b64decode self
    (b64encode (flip_bit sealed (8 * (length sealed - 16) + i))) = Ok (flip_bit raw i).
Proof.
  intros Hinit Hiv Hraw Henc Hdec Hi.
  destruct (pad_spec raw) as (k & b & Hk & Hr & Hb & Hp).
  destruct (encrypt_spec block_encrypt b64encode key iv raw self Hinit Hiv)
    as (padded & n & Hpad & Hlen & Hn & Hq & _ & Henc').
  destruct (init_inv _ _ Hinit) as [_ Hkey].
  rewrite Hp in Hpad. injection Hpad as <-.
  rewrite Henc' in Henc. injection Henc as <-.
  rewrite b64decode_b64encode in Hdec. injection Hdec as <-.
  set (padded := raw ++ repeat b (Z.to_nat k)) in *.
  pose proof (cbc_encrypt_length block_encrypt n key iv padded
                encrypt_block_length Hkey Hiv Hlen) as Hct.
  rewrite length_app, Hiv.
  replace (length (cbc_encrypt_blocks block_encrypt n key iv padded) + 16 - 16)%nat
    with (length (cbc_encrypt_blocks block_encrypt n key iv padded)) by lia.
  rewrite flip_bit_app_r.
  rewrite (decrypt_sealed block_decrypt b64encode b64decode key (flip_bit iv i) _ self n);
    auto; [|now rewrite flip_bit_length].
  pose proof (cbc_decrypt_encrypt block_encrypt block_decrypt n key iv padded
                encrypt_block_length decrypt_encrypt_block Hkey Hiv Hlen) as Hrt.
  destruct n as [|n]; [lia|].
  cbn [cbc_decrypt_blocks] in Hrt |- *.
  rewrite xor_bytes_flip_bit.
  2:{ rewrite Hiv. apply decrypt_block_length; [assumption|].
      rewrite length_firstn. lia. }
  rewrite <- flip_bit_app.
  2:{ rewrite xor_bytes_length, Hiv.
      rewrite decrypt_block_length; [lia | assumption | rewrite length_firstn; lia]. }
  rewrite Hrt. unfold padded.
  rewrite flip_bit_app by (unfold Py.len in Hraw; lia).
  apply unpad_padded; [assumption | lia].
Qed.

End MoreCipherProperties.

(** ** [ensure_directory_exists] and [main] *)

Section ScriptProperties.

Context {fs : Type} `{FileSystem fs}.

Variables block_encrypt block_decrypt : bytes -> bytes -> bytes.
Variable b64encode : bytes -> bytes.
Variable b64decode : bytes -> result bytes.

Hypothesis encrypt_block_length : block_length_ok block_encrypt.
Hypothesis decrypt_encrypt_block : block_inverse block_encrypt block_decrypt.
Hypothesis b64decode_b64encode : codec_inverse b64encode b64decode.

Hypothesis fs_written_is_read : written_is_read fs.
Hypothesis fs_decrypted_keeps_encrypted : write_keeps fs decrypted_file encrypted_file.
Hypothesis fs_makedirs_creates : makedirs_creates fs.
Hypothesis fs_makedirs_keeps_input : makedirs_keeps fs input_file.

Lemma and_then_returned {A B : Type} (m : program fs A) (k : A -> program fs B)
      (w w' : world fs) (a : A) :
  m w = (w', Returned a) -> and_then m k w = k a w'.
Proof. intros E. unfold and_then. now rewrite E. Qed.

Lemma and_then_failed {A B : Type} (m : program fs A) (k : A -> program fs B)
      (w w' : world fs) (f : failure) :
  m w = (w', Failed f) -> and_then m k w = (w', Failed f).
Proof. intros E. unfold and_then. now rewrite E. Qed.

(** What [ensure_directory_exists] does, by cases. *)
Lemma ensure_directory_exists_cases (path : string) (w : world fs) :
  (os_path_exists path (disk w) = true /\
   ensure_directory_exists path w = (w, Returned tt)) \/
  (os_path_exists path (disk w) = false /\
   ensure_directory_exists path w =
   after_os {| disk := disk w;
               stdout := stdout w ++ [(newline ++ "Creating directory: " ++ path)%string] |}
            (os_makedirs path (disk w))).
Proof.
  unfold ensure_directory_exists, and_then, path_exists.
  destruct (os_path_exists path (disk w)); [left | right]; split; reflexivity.
Qed.

(** [ensure_directory_exists] does not touch the content of a file. *)
Lemma ensure_directory_exists_keeps (path kept : string) (w w' : world fs) (o : outcome unit) :
  makedirs_keeps fs kept ->
  ensure_directory_exists path w = (w', o) ->
  read_binary kept (disk w') = read_binary kept (disk w).
Proof.
  intros Hkeep Hrun.
  destruct (ensure_directory_exists_cases path w) as [[_ E] | [_ E]];
    rewrite E in Hrun.
  - now injection Hrun as <- _.
  - unfold after_os in Hrun. cbn [disk stdout] in Hrun.
    destruct (os_makedirs path (disk w)) as [d e] eqn:Hmk.
    injection Hrun as <- _. cbn [disk fst]. exact (Hkeep _ _ _ _ Hmk).
Qed.

(** X8: after [ensure_directory_exists] has returned, the path exists and a
    second call changes nothing and prints nothing; a call on an existing
    path leaves the world as it is, and a call on a missing one prints the
    line that names the directory (given that a created directory exists). *)
Theorem ensure_directory_exists_idempotent (path : string) (w w' : world fs) :
  ensure_directory_exists path w = (w', Returned tt) ->
  os_path_exists path (disk w') = true /\
  ensure_directory_exists path w' = (w', Returned tt) /\
  (os_path_exists path (disk w) = true -> w' = w) /\
  (os_path_exists path (disk w) = false ->
   stdout w' = stdout w ++ [(newline ++ "Creating directory: " ++ path)%string]).
Proof.
  intros Hrun.
  assert (Hex : os_path_exists path (disk w') = true).
  { destruct (ensure_directory_exists_cases path w) as [[Hp E] | [Hp E]];
      rewrite E in Hrun.
    - now injection Hrun as <-.
    - unfold after_os in Hrun. cbn [disk stdout] in Hrun.
      destruct (os_makedirs path (disk w)) as [d [e|]] eqn:Hmk; cbn [fst snd] in Hrun;
        [discriminate Hrun|].
      injection Hrun as <-. cbn [disk]. exact (fs_makedirs_creates _ _ _ Hmk). }
  split; [exact Hex|]. split; [|split].
  - destruct (ensure_directory_exists_cases path w') as [[_ E] | [Hp _]];
      [exact E | congruence].
  - intros Hp. destruct (ensure_directory_exists_cases path w) as [[_ E] | [Hn _]];
      [|congruence]. rewrite E in Hrun. now injection Hrun.
  - intros Hp. destruct (ensure_directory_exists_cases path w) as [[Hy _] | [_ E]];
      [congruence|]. rewrite E in Hrun. unfold after_os in Hrun.
    injection Hrun as <- _. reflexivity.
Qed.

(** The steps of [main] up to the first write, when the key has 32 bytes. *)
Lemma main_steps (key iv : bytes) (w : world fs) :
  length key = 32%nat -> length iv = 16%nat ->
  exists (w1 : world fs) (o1 : outcome unit),
    ensure_directory_exists input_dir w = (w1, o1) /\
    match o1 with
    | Failed f => main block_encrypt block_decrypt b64encode b64decode key iv w = (w1, Failed f)
    | Returned _ =>
        match read_binary input_file (disk w1) with
        | inr e =>
            main block_encrypt block_decrypt b64encode b64decode key iv w
            = (w1, Failed (OSRaised e))
        | inl original =>
            exists (blob : bytes) (w2 : world fs) (o2 : outcome unit),
              encrypt block_encrypt b64encode {| _key := key |} iv original = Ok blob /\
              decrypt block_decrypt b64decode {| _key := key |} blob = Ok original /\
              ensure_directory_exists output_dir w1 = (w2, o2) /\
              main block_encrypt block_decrypt b64encode b64decode key iv w =
              match o2 with
              | Failed f => (w2, Failed f)
              | Returned _ =>
                  (_ <<- write_file encrypted_file blob ;;
                   write_file decrypted_file original) w2
              end
        end
    end.
Proof.
  intros Hk Hiv.
  assert (Hinit : __init__ key = Ok {| _key := key |}).
  { unfold __init__, Py.len. rewrite Hk. reflexivity. }
  destruct (ensure_directory_exists input_dir w) as [w1 o1] eqn:E1.
  exists w1, o1. split; [reflexivity|].
  unfold main. rewrite Hinit.
  rewrite (and_then_returned _ _ w w _ eq_refl).
  destruct o1 as [[]|f]; [|exact (and_then_failed _ _ _ _ _ E1)].
  rewrite (and_then_returned _ _ _ _ _ E1).
  destruct (read_binary input_file (disk w1)) as [original|e] eqn:R.
  2:{ apply and_then_failed. unfold read_file. now rewrite R. }
  assert (Hread : read_file input_file w1 = (w1, Returned original))
    by (unfold read_file; now rewrite R).
  rewrite (and_then_returned _ _ _ _ _ Hread).
  destruct (encrypt_spec block_encrypt b64encode key iv original _ Hinit Hiv)
    as (padded & n & Hpad & Hlen & Hn & _ & Hup & Henc).
  rewrite Hpad in Hup. cbn [bind] in Hup.
  assert (Hdec : decrypt block_decrypt b64decode {| _key := key |}
                   (b64encode (cbc_encrypt_blocks block_encrypt n key iv padded ++ iv))
                 = Ok original).
  { rewrite (decrypt_sealed block_decrypt b64encode b64decode key iv _ _ n); auto.
    - now rewrite cbc_decrypt_encrypt.
    - now apply cbc_encrypt_length. }
  destruct (ensure_directory_exists output_dir w1) as [w2 o2] eqn:E2.
  eexists _, w2, o2. split; [exact Henc|]. split; [exact Hdec|]. split; [reflexivity|].
  rewrite Henc. rewrite (and_then_returned _ _ w1 w1 _ eq_refl).
  destruct o2 as [[]|f]; [|exact (and_then_failed _ _ _ _ _ E2)].
  rewrite (and_then_returned _ _ _ _ _ E2).
  unfold and_then. destruct (write_file encrypted_file _ w2) as [w3 [[]|f]]; [|reflexivity].
  rewrite Hdec. reflexivity.
Qed.


(** X7: [main] can only fail with an error of the operating system (a
    directory that cannot be created, the input that cannot be read, an
    output that cannot be written): the key is always accepted, [encrypt]
    succeeds and [decrypt] accepts what [encrypt] returned. *)
Theorem main_fails_only_on_os_errors (key iv : bytes) (w w' : world fs) (f : failure) :
  length key = 32%nat -> length iv = 16%nat ->
  main block_encrypt block_decrypt b64encode b64decode key iv w = (w', Failed f) ->
  exists e : os_error, f = OSRaised e.
Proof.
  intros Hk Hiv Hrun.
  assert (Hens : forall path (v v' : world fs) (g : failure),
             ensure_directory_exists path v = (v', Failed g) -> exists e, g = OSRaised e).
  { intros path v v' g Hg.
    destruct (ensure_directory_exists_cases path v) as [[_ E] | [_ E]];
      rewrite E in Hg; [discriminate Hg|].
    unfold after_os in Hg. destruct (snd (os_makedirs path (disk v))) as [e|];
      [|discriminate Hg]. injection Hg as _ <-. eauto. }
  destruct (main_steps key iv w Hk Hiv) as (w1 & o1 & E1 & Hrest).
  destruct o1 as [[]|g].
  - destruct (read_binary input_file (disk w1)) as [original|e].
    + destruct Hrest as (blob & w2 & o2 & _ & _ & E2 & Hmain).
      rewrite Hmain in Hrun. destruct o2 as [[]|g].
      * unfold and_then, write_file, after_os in Hrun.
        destruct (snd (write_binary encrypted_file blob (disk w2))) as [e|].
        -- injection Hrun as _ <-. eauto.
        -- cbn [disk stdout] in Hrun.
           destruct (snd (write_binary decrypted_file original
                            (fst (write_binary encrypted_file blob (disk w2))))) as [e|];
             [|discriminate Hrun].
           injection Hrun as _ <-. eauto.
      * injection Hrun as _ <-. exact (Hens _ _ _ _ E2).
    + rewrite Hrest in Hrun. injection Hrun as _ <-. eauto.
  - rewrite Hrest in Hrun. injection Hrun as _ <-. exact (Hens _ _ _ _ E1).
Qed.

End ScriptProperties.

(** ** The table file system keeps the contracts *)

Lemma table_written_is_read : written_is_read table_fs.
Proof.
  intros path data d d' Hw. cbn in Hw. injection Hw as <-.
  cbn. unfold table_lookup. cbn. now rewrite String.eqb_refl.
Qed.

Lemma table_write_keeps (written kept : string) :
  String.eqb kept written = false -> write_keeps table_fs written kept.
Proof.
  intros Hne data d d' Hw. cbn in Hw. injection Hw as <-.
  cbn. unfold table_lookup. cbn. now rewrite Hne.
Qed.

Lemma table_makedirs_creates : makedirs_creates table_fs.
Proof.
  intros path d d' Hm. cbn in Hm. injection Hm as <-.
  cbn. now rewrite String.eqb_refl.
Qed.

Lemma table_makedirs_keeps (kept : string) : makedirs_keeps table_fs kept.
Proof. intros path d d' e Hm. cbn in Hm. injection Hm as <- _. reflexivity. Qed.

(** ** The extra properties on AES-256, base64 and the table file system *)

(** X1 at the zero key and 32 zero bytes. *)
Lemma decrypt_accepts_aligned_witness :
  __init__ zero_key = Ok zero_cipher /\
  Base64.b64decode (Base64.b64encode (repeat x00 32)) = Ok (repeat x00 32) /\
  32 <= Py.len (repeat x00 32) /\ Py.len (repeat x00 32) mod 16 = 0 /\
  exists padded out : bytes,
    decryptor_run AES.decrypt_block
      {| cipher_key := zero_key; cipher_iv := Py.slice_from (repeat x00 32) (- block_size) |}
      (Py.slice_to (repeat x00 32) (- block_size)) = Ok padded /\
    Py.len padded = Py.len (repeat x00 32) - 16 /\
    _unpad padded = Ok out /\
    Py.len out < Py.len padded /\
    aes_decrypt zero_cipher (Base64.b64encode (repeat x00 32)) = Ok out.
Proof.
  assert (Hdec : Base64.b64decode (Base64.b64encode (repeat x00 32)) = Ok (repeat x00 32))
    by (vm_compute; reflexivity).
  assert (Hmin : 32 <= Py.len (repeat x00 32)) by (vm_compute; discriminate).
  assert (Hmod : Py.len (repeat x00 32) mod 16 = 0) by reflexivity.
  split; [reflexivity|]. split; [exact Hdec|]. split; [exact Hmin|]. split; [exact Hmod|].
  exact (decrypt_accepts_aligned AES.decrypt_block Base64.b64decode AES_decrypt_block_length
           zero_key (Base64.b64encode (repeat x00 32)) (repeat x00 32) zero_cipher
           eq_refl Hdec Hmin Hmod).
Defined.

(** X2: sealed under the zero key, opened under [ones_key]. *)
Lemma decrypt_wrong_key_witness :
  __init__ zero_key = Ok zero_cipher /\
  __init__ ones_key = Ok {| _key := ones_key |} /\
  length iv0 = 16%nat /\
  aes_encrypt zero_cipher iv0 two_blocks = Ok two_blocks_blob /\
  exists padded cipher_text padded' out : bytes,
    _pad two_blocks = Ok padded /\
    encryptor_run AES.encrypt_block {| cipher_key := zero_key; cipher_iv := iv0 |} padded
    = Ok cipher_text /\
    two_blocks_blob = Base64.b64encode (cipher_text ++ iv0) /\
    decryptor_run AES.decrypt_block {| cipher_key := ones_key; cipher_iv := iv0 |} cipher_text
    = Ok padded' /\
    _unpad padded' = Ok out /\
    aes_decrypt {| _key := ones_key |} two_blocks_blob = Ok out.
Proof.
  assert (Henc : aes_encrypt zero_cipher iv0 two_blocks = Ok two_blocks_blob)
    by (vm_compute; reflexivity).
  split; [reflexivity|]. split; [reflexivity|]. split; [reflexivity|]. split; [exact Henc|].
  exact (decrypt_wrong_key AES.encrypt_block AES.decrypt_block
           Base64.b64encode Base64.b64decode
           AES_encrypt_block_length AES_decrypt_block_length Base64_decode_encode
           zero_key ones_key iv0 two_blocks two_blocks_blob zero_cipher {| _key := ones_key |}
           eq_refl eq_refl eq_refl Henc).
Defined.

(** X3 at the zero key and 33 zero bytes. *)
Lemma decrypt_misaligned_witness :
  __init__ zero_key = Ok zero_cipher /\
  Base64.b64decode (Base64.b64encode (repeat x00 33)) = Ok (repeat x00 33) /\
  16 < Py.len (repeat x00 33) /\ Py.len (repeat x00 33) mod 16 <> 0 /\
  aes_decrypt zero_cipher (Base64.b64encode (repeat x00 33)) = Raise not_block_multiple.
Proof.
  assert (Hdec : Base64.b64decode (Base64.b64encode (repeat x00 33)) = Ok (repeat x00 33))
    by (vm_compute; reflexivity).
  assert (Hmin : 16 < Py.len (repeat x00 33)) by reflexivity.
  assert (Hmod : Py.len (repeat x00 33) mod 16 <> 0) by (vm_compute; discriminate).
  split; [reflexivity|]. split; [exact Hdec|]. split; [exact Hmin|]. split; [exact Hmod|].
  exact (decrypt_misaligned AES.decrypt_block Base64.b64decode
           zero_key (Base64.b64encode (repeat x00 33)) (repeat x00 33) zero_cipher
           eq_refl Hdec Hmin Hmod).
Defined.

(** X4 at the zero key, [iv0] and [two_blocks]. *)
Lemma encrypt_injective_witness :
  __init__ zero_key = Ok zero_cipher /\ length iv0 = 16%nat /\
  aes_encrypt zero_cipher iv0 two_blocks = Ok two_blocks_blob /\
  iv0 = iv0 /\ two_blocks = two_blocks.
Proof.
  assert (Henc : aes_encrypt zero_cipher iv0 two_blocks = Ok two_blocks_blob)
    by (vm_compute; reflexivity).
  split; [reflexivity|]. split; [reflexivity|]. split; [exact Henc|].
  exact (encrypt_injective AES.encrypt_block AES.decrypt_block
           Base64.b64encode Base64.b64decode
           AES_encrypt_block_length AES_decrypt_encrypt_block Base64_decode_encode
           zero_key iv0 iv0 two_blocks two_blocks two_blocks_blob zero_cipher
           eq_refl eq_refl eq_refl Henc Henc).
Defined.

(** X5 at the zero key, [iv0], [two_blocks] and bit 0. *)
Lemma flipped_iv_flips_plaintext_witness :
  __init__ zero_key = Ok zero_cipher /\ length iv0 = 16%nat /\
  16 <= Py.len two_blocks /\
  aes_encrypt zero_cipher iv0 two_blocks = Ok two_blocks_blob /\
  Base64.b64decode two_blocks_blob = Ok (two_blocks_cipher_text ++ iv0) /\
  (0 < 128)%nat /\
  aes_decrypt zero_cipher
    (Base64.b64encode
       (flip_bit (two_blocks_cipher_text ++ iv0)
                 (8 * (length (two_blocks_cipher_text ++ iv0) - 16) + 0)))
  = Ok (flip_bit two_blocks 0).
Proof.
  assert (Hlen : 16 <= Py.len two_blocks) by (vm_compute; discriminate).
  assert (Henc : aes_encrypt zero_cipher iv0 two_blocks = Ok two_blocks_blob)
    by (vm_compute; reflexivity).
  assert (Hdec : Base64.b64decode two_blocks_blob = Ok (two_blocks_cipher_text ++ iv0))
    by (vm_compute; reflexivity).
  assert (Hi : (0 < 128)%nat) by lia.
  split; [reflexivity|]. split; [reflexivity|]. split; [exact Hlen|]. split; [exact Henc|].
  split; [exact Hdec|]. split; [exact Hi|].
  exact (flipped_iv_flips_plaintext AES.encrypt_block AES.decrypt_block
           Base64.b64encode Base64.b64decode
           AES_encrypt_block_length AES_decrypt_block_length AES_decrypt_encrypt_block
           Base64_decode_encode
           zero_key iv0 two_blocks two_blocks_blob (two_blocks_cipher_text ++ iv0)
           zero_cipher 0%nat eq_refl eq_refl Hlen Henc Hdec Hi).
Defined.


(** X7 on [empty_world]: the input is missing. *)
Lemma main_fails_only_on_os_errors_witness :
  length zero_key = 32%nat /\ length iv0 = 16%nat /\
  aes_main zero_key iv0 empty_world
  = ({| disk := {| directories := [input_dir]; files := [] |};
        stdout := [(newline ++ "Creating directory: ./input/")%string] |},
     Failed (OSRaised (OSError "FileNotFoundError" input_file))) /\
  exists e : os_error, OSRaised (OSError "FileNotFoundError" input_file) = OSRaised e.
Proof.
  assert (Hrun : aes_main zero_key iv0 empty_world
                 = ({| disk := {| directories := [input_dir]; files := [] |};
                       stdout := [(newline ++ "Creating directory: ./input/")%string] |},
                    Failed (OSRaised (OSError "FileNotFoundError" input_file))))
    by (vm_compute; reflexivity).
  split; [reflexivity|]. split; [reflexivity|]. split; [exact Hrun|].
  exact (@main_fails_only_on_os_errors table_fs table_FileSystem
           AES.encrypt_block AES.decrypt_block Base64.b64encode Base64.b64decode
           AES_encrypt_block_length AES_decrypt_encrypt_block Base64_decode_encode
           zero_key iv0 empty_world _ _ eq_refl eq_refl Hrun).
Defined.

(** X8 on [empty_world] and [./input/]. *)
Lemma ensure_directory_exists_idempotent_witness :
  ensure_directory_exists input_dir empty_world
  = ({| disk := {| directories := [input_dir]; files := [] |};
        stdout := [(newline ++ "Creating directory: ./input/")%string] |}, Returned tt) /\
  os_path_exists input_dir {| directories := [input_dir]; files := [] |} = true /\
  ensure_directory_exists input_dir
    {| disk := {| directories := [input_dir]; files := [] |};
       stdout := [(newline ++ "Creating directory: ./input/")%string] |}
  = ({| disk := {| directories := [input_dir]; files := [] |};
        stdout := [(newline ++ "Creating directory: ./input/")%string] |}, Returned tt).
Proof.
  assert (Hrun : ensure_directory_exists input_dir empty_world
                 = ({| disk := {| directories := [input_dir]; files := [] |};
                       stdout := [(newline ++ "Creating directory: ./input/")%string] |},
                    Returned tt)) by reflexivity.
  split; [exact Hrun|].
  pose proof (@ensure_directory_exists_idempotent table_fs table_FileSystem
                table_makedirs_creates input_dir empty_world _ Hrun) as (H1 & H2 & _).
  exact (conj H1 H2).
Defined.
